(** * The notifications hook of the campus-safety mobile app

    A shallow embedding of the [NotificationsProvider] hook: the React state
    it owns ([notifications], [emergencyAlerts], [loading]), the callbacks it
    returns, and the calls they make to [@/services/database].

    The callbacks are [async] functions.  They are embedded as terms of a
    small free monad [Prog] whose actions are the effects the source
    performs (state setters, [await] of a database call, [new Date()],
    [console.error]); [run] executes such a term against a [World] that
    holds the hook state, the clock, the calls issued so far and the
    answers the database will give. *)

From Stdlib Require Import String List Bool ZArith Permutation Lia.
Import ListNotations.
Open Scope string_scope.
Open Scope list_scope.

Set Implicit Arguments.

(** ** Data model *)

(** ISO-8601 strings, as produced by [new Date().toISOString()]. *)
Definition Timestamp := string.

(** Modelled from the spec: [@/types] is not part of the sources; the role
    of an identity is one of [user], [admin]. *)
Module Role.
Inductive t : Type := user | admin.

Definition eqb (a b : t) : bool :=
  match a, b with
  | user, user | admin, admin => true
  | _, _ => false
  end.
End Role.

(** Modelled from the spec: the [User] type of [@/types] (the value that
  [useAuth] exposes as [user]). *)
Module User.
Record t : Type := Build
  { id : string;
    email : string;
    fullName : string;
    department : string;
    role : Role.t;
    createdAt : Timestamp }.
End User.

(** Modelled from the spec: [NotificationStatus] of [@/types]. *)
Module Status.
Inductive t : Type := open | in_progress | resolved | closed.
End Status.

(** The [location] object of [CreateNotificationData].  The coordinates are
  only carried around, never computed with; they are kept as integers. *)
Module Location.
Record t : Type := Build
  { latitude : Z;
    longitude : Z;
    address : option string }.
End Location.

(** [CreateNotificationData], the argument of [createNotification]. *)
Module CreateNotificationData.
Record t : Type := Build
  { type : string;
    title : string;
    description : string;
    location : Location.t;
    photoUrl : option string }.
End CreateNotificationData.

(** [Omit<Notification, 'id'>], the payload of [createNotificationInDb]. *)
Module NotificationData.
Record t : Type := Build
  { type : string;
    title : string;
    description : string;
    location : Location.t;
    photoUrl : option string;
    status : Status.t;
    createdBy : string;
    createdByName : string;
    createdAt : Timestamp;
    updatedAt : Timestamp;
    followedBy : list string }.
End NotificationData.

(** [Partial<Notification>]: every key may be absent.  An optional key of
  [Notification] that is present holds a value or [undefined]. *)
Module Partial.
Record t : Type := Build
  { id : option string;
    type : option string;
    title : option string;
    description : option string;
    location : option Location.t;
    photoUrl : option (option string);
    status : option Status.t;
    createdBy : option string;
    createdByName : option string;
    createdAt : option Timestamp;
    updatedAt : option Timestamp;
    followedBy : option (list string) }.

(** The object literal [{}]. *)
Definition empty : t :=
  Build None None None None None None None None None None None None.

(** [{ ...p, updatedAt: ts }] *)
Definition with_updatedAt (p : t) (ts : Timestamp) : t :=
  Build (id p) (type p) (title p) (description p) (location p) (photoUrl p)
        (status p) (createdBy p) (createdByName p) (createdAt p) (Some ts)
        (followedBy p).

(** [{ status, updatedAt }] *)
Definition of_status (s : Status.t) (ts : Timestamp) : t :=
  Build None None None None None None (Some s) None None None (Some ts) None.

(** [{ followedBy }] *)
Definition of_followedBy (l : list string) : t :=
  Build None None None None None None None None None None None (Some l).
End Partial.

(** Modelled from the spec: the [Notification] type of [@/types]. *)
Module Notification.
Record t : Type := Build
  { id : string;
    type : string;
    title : string;
    description : string;
    location : Location.t;
    photoUrl : option string;
    status : Status.t;
    createdBy : string;
    createdByName : string;
    createdAt : Timestamp;
    updatedAt : Timestamp;
    followedBy : list string }.

(** [{ id, ...data }] *)
Definition of_data (i : string) (d : NotificationData.t) : t :=
  Build i (NotificationData.type d) (NotificationData.title d)
        (NotificationData.description d) (NotificationData.location d)
        (NotificationData.photoUrl d) (NotificationData.status d)
        (NotificationData.createdBy d) (NotificationData.createdByName d)
        (NotificationData.createdAt d) (NotificationData.updatedAt d)
        (NotificationData.followedBy d).

(** [{ ...n, followedBy: l }] *)
Definition with_followedBy (n : t) (l : list string) : t :=
  Build (id n) (type n) (title n) (description n) (location n) (photoUrl n)
        (status n) (createdBy n) (createdByName n) (createdAt n)
        (updatedAt n) l.

(** [{ ...n, status: s, updatedAt: ts }] *)
Definition with_status (n : t) (s : Status.t) (ts : Timestamp) : t :=
  Build (id n) (type n) (title n) (description n) (location n) (photoUrl n)
        s (createdBy n) (createdByName n) (createdAt n) ts (followedBy n).

Definition or_else {A : Type} (o : option A) (a : A) : A :=
  match o with Some x => x | None => a end.

(** [{ ...n, ...updates, updatedAt: ts }] *)
Definition assign (n : t) (updates : Partial.t) (ts : Timestamp) : t :=
  Build (or_else (Partial.id updates) (id n))
        (or_else (Partial.type updates) (type n))
        (or_else (Partial.title updates) (title n))
        (or_else (Partial.description updates) (description n))
        (or_else (Partial.location updates) (location n))
        (or_else (Partial.photoUrl updates) (photoUrl n))
        (or_else (Partial.status updates) (status n))
        (or_else (Partial.createdBy updates) (createdBy n))
        (or_else (Partial.createdByName updates) (createdByName n))
        (or_else (Partial.createdAt updates) (createdAt n))
        ts
        (or_else (Partial.followedBy updates) (followedBy n)).
End Notification.

(** [Omit<EmergencyAlert, 'id'>], the payload of [createEmergencyAlertInDb]. *)
Module AlertData.
Record t : Type := Build
  { title : string;
    message : string;
    createdAt : Timestamp;
    createdBy : string }.
End AlertData.

(** Modelled from the spec: the [EmergencyAlert] type of [@/types]. *)
Module EmergencyAlert.
Record t : Type := Build
  { id : string;
    title : string;
    message : string;
    createdAt : Timestamp;
    createdBy : string }.

(** [{ id, ...alertData }] *)
Definition of_data (i : string) (d : AlertData.t) : t :=
  Build i (AlertData.title d) (AlertData.message d) (AlertData.createdAt d)
        (AlertData.createdBy d).
End EmergencyAlert.

(** ** Array helpers *)

(** [l.includes(x)] on an array of strings. *)
Definition includes (l : list string) (x : string) : bool :=
  existsb (String.eqb x) l.

(** [l.filter(id => id !== x)] *)
Definition without (l : list string) (x : string) : list string :=
  filter (fun id => negb (String.eqb id x)) l.

(** [prev.map(cb)] for a callback that assigns to a captured [let]
    variable: the variable is threaded through the elements from left to
    right. *)
Fixpoint map_capturing {A V : Type} (cb : A -> V -> A * V) (l : list A) (v : V)
  : list A * V :=
  match l with
  | [] => ([], v)
  | a :: rest =>
      let (a', v1) := cb a v in
      let (rest', v2) := map_capturing cb rest v1 in
      (a' :: rest', v2)
  end.

(** ** Thrown values *)

Inductive Thrown : Type :=
| JsError (message : string)     (* [new Error(message)] *)
| RemoteError (reason : string). (* a rejection of a database call *)

Definition NotAuthenticated : Thrown := JsError "User not authenticated".
Definition NotAuthorized : Thrown :=
  JsError "Only admins can create emergency alerts".

Inductive Result (A : Type) : Type :=
| Fulfilled (a : A)
| Rejected (e : Thrown).
Arguments Fulfilled {A} a.
Arguments Rejected {A} e.

(** ** The database service *)

(** The functions imported from [@/services/database], with their
    arguments. *)
Inductive DbCall : Type :=
| fetchNotificationsFromDb
| fetchEmergencyAlertsFromDb
| createNotificationInDb (data : NotificationData.t)
| updateNotificationInDb (id : string) (updates : Partial.t)
| deleteNotificationFromDb (id : string)
| createEmergencyAlertInDb (data : AlertData.t).

(** What the promise of a call is fulfilled with. *)
Definition reply (c : DbCall) : Type :=
  match c with
  | fetchNotificationsFromDb => list Notification.t
  | fetchEmergencyAlertsFromDb => list EmergencyAlert.t
  | createNotificationInDb _ => string
  | updateNotificationInDb _ _ => unit
  | deleteNotificationFromDb _ => unit
  | createEmergencyAlertInDb _ => string
  end.

(** How the store settles the promise of each call. *)
Definition Db : Type := forall c : DbCall, Result (reply c).

(** One resumption of a suspended callback: the store's answers, the
    clock reading when the callback runs again and, for a callback that
    awaits two promises at once, whether the second of them settled before
    the first. *)
Record Resume : Type := MkRacedResume
  { answer : Db;
    at_time : Timestamp;
    second_settles_first : bool }.

(** A resumption in which the promises settle in the order they were
    made. *)
Definition MkResume (answer : Db) (at_time : Timestamp) : Resume :=
  MkRacedResume answer at_time false.

(** ** The hook state and the world around it *)

(** The three [useState] cells of the hook. *)
Module Hook.
Record t : Type := Build
  { notifications : list Notification.t;
    emergencyAlerts : list EmergencyAlert.t;
    loading : bool }.

(** The initial values of the three cells. *)
Definition initial : t := Build [] [] false.
End Hook.

(** Everything a running callback reads or changes.
    - [now]: what [new Date().toISOString()] returns; it only advances while
      a callback is suspended at an [await].
    - [calls]: the database calls issued so far, oldest first.
    - [console]: the messages passed to [console.error], oldest first.
    - [inbox]: the resumptions still to come, one per [await]; when it is
      empty the awaited promise has not settled yet.
    - [eager]: whether React runs the function passed to a state setter
      during the setter call (its update queue is empty) or defers it to the
      next render.  The value of the state after the update is the same in
      both cases; what differs is whether an assignment made inside that
      function is visible to the statements that follow the setter call. *)
Record World : Type := MkWorld
  { hook : Hook.t;
    now : Timestamp;
    calls : list DbCall;
    console : list (string * Thrown);
    inbox : list Resume;
    eager : bool }.

Definition set_hook (w : World) (h : Hook.t) : World :=
  MkWorld h (now w) (calls w) (console w) (inbox w) (eager w).

Definition set_notifications (w : World) (l : list Notification.t) : World :=
  set_hook w (Hook.Build l (Hook.emergencyAlerts (hook w)) (Hook.loading (hook w))).

Definition set_emergencyAlerts (w : World) (l : list EmergencyAlert.t)
  : World :=
  set_hook w (Hook.Build (Hook.notifications (hook w)) l (Hook.loading (hook w))).

Definition set_loading (w : World) (b : bool) : World :=
  set_hook w (Hook.Build (Hook.notifications (hook w)) (Hook.emergencyAlerts (hook w)) b).

Definition log_error (w : World) (msg : string) (e : Thrown) : World :=
  MkWorld (hook w) (now w) (calls w) (console w ++ [(msg, e)]) (inbox w)
          (eager w).

(** The same world with React's scheduling choice for the next setter
    call. *)
Definition set_eager (w : World) (b : bool) : World :=
  MkWorld (hook w) (now w) (calls w) (console w) (inbox w) b.

Definition issue (w : World) (cs : list DbCall) : World :=
  MkWorld (hook w) (now w) (calls w ++ cs) (console w) (inbox w) (eager w).

Definition resume (w : World) (r : Resume) (rest : list Resume) : World :=
  MkWorld (hook w) (at_time r) (calls w) (console w) rest (eager w).

(** ** Programs *)

(** The effects a callback performs, and what each hands back. *)
Inductive Effect : Type :=
| NewDate
    (* [new Date().toISOString()] *)
| SetLoading (b : bool)
| SetNotifications (f : Timestamp -> list Notification.t -> list Notification.t)
    (* [setNotifications(prev => ...)]; the function may read the clock *)
| SetNotificationsCapturing
    (init : bool)
    (f : list Notification.t -> bool -> list Notification.t * bool)
    (* [setNotifications(prev => ...)] where the function assigns to a
       [let] variable of the enclosing callback, initialised to [init] *)
| SetEmergencyAlerts (f : list EmergencyAlert.t -> list EmergencyAlert.t)
| ConsoleError (msg : string) (e : Thrown)
| Await (c : DbCall)
    (* [await c], handing back how the promise settled *)
| AwaitAll (c1 c2 : DbCall).
    (* [await Promise.all([c1, c2])] *)

Definition handed_back (e : Effect) : Type :=
  match e with
  | NewDate => Timestamp
  | SetLoading _ => unit
  | SetNotifications _ => unit
  | SetNotificationsCapturing _ _ => bool
  | SetEmergencyAlerts _ => unit
  | ConsoleError _ _ => unit
  | Await c => Result (reply c)
  | AwaitAll c1 c2 => Result (reply c1 * reply c2)
  end.

(** The body of an [async] function returning [A].  [Spawn q k] calls the
    async function [q] without awaiting it and goes on with [k]. *)
Inductive Prog (A : Type) : Type :=
| Ret (a : A)
| Throw (e : Thrown)
| Act (e : Effect) (k : handed_back e -> Prog A)
| Spawn (q : Prog unit) (k : Prog A).
Arguments Ret {A} a.
Arguments Throw {A} e.
Arguments Act {A} e k.
Arguments Spawn {A} q k.

Fixpoint bind {A B : Type} (p : Prog A) (f : A -> Prog B) : Prog B :=
  match p with
  | Ret a => f a
  | Throw e => Throw e
  | Act e k => Act e (fun x => bind (k x) f)
  | Spawn q k => Spawn q (bind k f)
  end.

(** [try { p } catch (error) { h error }] *)
Fixpoint try_catch {A : Type} (p : Prog A) (h : Thrown -> Prog A) : Prog A :=
  match p with
  | Ret a => Ret a
  | Throw e => h e
  | Act e k => Act e (fun x => try_catch (k x) h)
  | Spawn q k => Spawn q (try_catch k h)
  end.

(** [try { p } finally { fin }], for a [fin] that completes normally. *)
Fixpoint try_finally {A : Type} (p : Prog A) (fin : Prog unit) : Prog A :=
  match p with
  | Ret a => bind fin (fun _ => Ret a)
  | Throw e => bind fin (fun _ => Throw e)
  | Act e k => Act e (fun x => try_finally (k x) fin)
  | Spawn q k => Spawn q (try_finally k fin)
  end.

Definition perform (e : Effect) : Prog (handed_back e) := Act e Ret.

(** [await c]: the value the promise is fulfilled with; a rejection is
    thrown. *)
Definition await (c : DbCall) : Prog (reply c) :=
  Act (Await c) (fun r =>
    match r with
    | Fulfilled v => Ret v
    | Rejected e => Throw e
    end).

Definition await_all (c1 c2 : DbCall) : Prog (reply c1 * reply c2) :=
  Act (AwaitAll c1 c2) (fun r =>
    match r with
    | Fulfilled v => Ret v
    | Rejected e => Throw e
    end).

Declare Scope prog_scope.
Delimit Scope prog_scope with prog.
Notation "x <- p ;; q" := (bind p (fun x => q))
  (at level 100, p at next level, right associativity) : prog_scope.
Notation "p ;; q" := (bind p (fun _ => q))
  (at level 100, right associativity) : prog_scope.
Notation "' pat <- p ;; q" := (bind p (fun x => match x with pat => q end))
  (at level 100, pat pattern, p at next level, right associativity)
  : prog_scope.
Open Scope prog_scope.

(** ** Running a program *)

Inductive Outcome (A : Type) : Type :=
| Returned (a : A)   (* the promise of the callback is fulfilled *)
| Threw (e : Thrown) (* the promise of the callback is rejected *)
| Pending.           (* the callback is suspended at an [await] *)
Arguments Returned {A} a.
Arguments Threw {A} e.
Arguments Pending {A}.

(** How [Promise.all] of two promises settles: fulfilled with both values
    when both are fulfilled, rejected with the rejection that comes first in
    time otherwise. *)
Definition all_settled {A B : Type} (second_first : bool)
  (a : Result A) (b : Result B) : Result (A * B) :=
  match a, b with
  | Fulfilled x, Fulfilled y => Fulfilled (x, y)
  | Rejected e, Fulfilled _ => Rejected e
  | Fulfilled _, Rejected e => Rejected e
  | Rejected e1, Rejected e2 => Rejected (if second_first then e2 else e1)
  end.

(** [run p w]: the outcome of the callback and the world it leaves.  A
    spawned callback is run where it is called; the statements after the
    call then go on whatever became of it. *)
Fixpoint run {A : Type} (p : Prog A) (w : World) : Outcome A * World :=
  match p with
  | Ret a => (Returned a, w)
  | Throw e => (Threw e, w)
  | Act e k =>
      match e return (handed_back e -> Prog A) -> Outcome A * World with
      | NewDate => fun k => run (k (now w)) w
      | SetLoading b => fun k => run (k tt) (set_loading w b)
      | SetNotifications f => fun k =>
          run (k tt) (set_notifications w (f (now w) (Hook.notifications (hook w))))
      | SetNotificationsCapturing init f => fun k =>
          let (l, v) := f (Hook.notifications (hook w)) init in
          run (k (if eager w then v else init)) (set_notifications w l)
      | SetEmergencyAlerts f => fun k =>
          run (k tt) (set_emergencyAlerts w (f (Hook.emergencyAlerts (hook w))))
      | ConsoleError msg err => fun k => run (k tt) (log_error w msg err)
      | Await c => fun k =>
          match inbox w with
          | [] => (Pending, issue w [c])
          | r :: rest => run (k (answer r c)) (resume (issue w [c]) r rest)
          end
      | AwaitAll c1 c2 => fun k =>
          match inbox w with
          | [] => (Pending, issue w [c1; c2])
          | r :: rest =>
              run (k (all_settled (second_settles_first r) (answer r c1) (answer r c2)))
                  (resume (issue w [c1; c2]) r rest)
          end
      end k
  | Spawn q k => let (_, w') := run q w in run k w'
  end.

(** ** The callbacks of the hook *)

Section Callbacks.

(** The values a render of the hook closes its callbacks over: [user] from
    [useAuth()], and the value of the [notifications] cell at that render.
    Each callback below depends on exactly the ones listed in its
    [useCallback] dependency array. *)
Variable user : option User.t.
Variable notifications : list Notification.t.

Definition refreshNotifications : Prog unit :=
  perform (SetLoading true) ;;
  try_finally
    (try_catch
       ('(notificationsData, emergencyAlertsData) <-
          await_all fetchNotificationsFromDb fetchEmergencyAlertsFromDb ;;
        perform (SetNotifications (fun _ _ => notificationsData)) ;;
        perform (SetEmergencyAlerts (fun _ => emergencyAlertsData)))
       (fun error =>
          perform (ConsoleError "Failed to fetch notifications or alerts" error)))
    (perform (SetLoading false)).

Definition createNotification (data : CreateNotificationData.t)
  : Prog Notification.t :=
  match user with
  | None => Throw NotAuthenticated
  | Some user =>
      timestamp <- perform NewDate ;;
      let newNotificationData :=
        NotificationData.Build
          (CreateNotificationData.type data)
          (CreateNotificationData.title data)
          (CreateNotificationData.description data)
          (CreateNotificationData.location data)
          (CreateNotificationData.photoUrl data)
          Status.open
          (User.id user)
          (User.fullName user)
          timestamp
          timestamp
          [User.id user] in
      id <- await (createNotificationInDb newNotificationData) ;;
      let newNotification := Notification.of_data id newNotificationData in
      perform (SetNotifications (fun _ prev => newNotification :: prev)) ;;
      Ret newNotification
  end.

Definition updateNotificationStatus (id : string) (status : Status.t)
  : Prog unit :=
  try_catch
    (timestamp <- perform NewDate ;;
     await (updateNotificationInDb id (Partial.of_status status timestamp)) ;;
     perform (SetNotifications (fun date prev =>
       map (fun n =>
              if (Notification.id n =? id)%string
              then Notification.with_status n status date
              else n)
           prev)))
    (fun error =>
       perform (ConsoleError "Failed to update status" error) ;;
       Throw error).

Definition updateNotification (id : string) (updates : Partial.t)
  : Prog unit :=
  try_catch
    (timestamp <- perform NewDate ;;
     await (updateNotificationInDb id (Partial.with_updatedAt updates timestamp)) ;;
     perform (SetNotifications (fun _ prev =>
       map (fun n =>
              if (Notification.id n =? id)%string
              then Notification.assign n updates timestamp
              else n)
           prev)))
    (fun error =>
       perform (ConsoleError "Failed to update notification" error) ;;
       Throw error).

Definition deleteNotification (id : string) : Prog unit :=
  try_catch
    (await (deleteNotificationFromDb id) ;;
     perform (SetNotifications (fun _ prev =>
       filter (fun n => negb (Notification.id n =? id)%string) prev)))
    (fun error =>
       perform (ConsoleError "Failed to delete notification" error) ;;
       Throw error).

(** The callback of [prev.map] in [toggleFollow]; [isFollowing] is the
    [let] variable of [toggleFollow] it assigns to. *)
Definition toggleFollow_step (userId notificationId : string)
  (n : Notification.t) (isFollowing : bool) : Notification.t * bool :=
  if negb (Notification.id n =? notificationId)%string then (n, isFollowing)
  else
    let isFollowing := includes (Notification.followedBy n) userId in
    (Notification.with_followedBy n
       (if isFollowing
        then without (Notification.followedBy n) userId
        else Notification.followedBy n ++ [userId]),
     isFollowing).

Definition toggleFollow (notificationId : string) : Prog unit :=
  match user with
  | None => Ret tt
  | Some user =>
      isFollowing <-
        perform (SetNotificationsCapturing false
                   (map_capturing (toggleFollow_step (User.id user) notificationId))) ;;
      try_catch
        (match find (fun n => (Notification.id n =? notificationId)%string)
                    notifications with
         | None => Ret tt
         | Some notification =>
             let currentFollowers := Notification.followedBy notification in
             let newFollowers :=
               if isFollowing : bool
               then without currentFollowers (User.id user)
               else currentFollowers ++ [User.id user] in
             await (updateNotificationInDb notificationId
                      (Partial.of_followedBy newFollowers))
         end)
        (fun error =>
           perform (ConsoleError "Failed to toggle follow" error) ;;
           Spawn refreshNotifications (Ret tt))
  end.

Definition createEmergencyAlert (title message : string)
  : Prog EmergencyAlert.t :=
  match user with
  | None => Throw NotAuthorized
  | Some user =>
      if negb (Role.eqb (User.role user) Role.admin) then Throw NotAuthorized
      else
        timestamp <- perform NewDate ;;
        let alertData := AlertData.Build title message timestamp (User.id user) in
        try_catch
          (id <- await (createEmergencyAlertInDb alertData) ;;
           let newAlert := EmergencyAlert.of_data id alertData in
           perform (SetEmergencyAlerts (fun prev => newAlert :: prev)) ;;
           Ret newAlert)
          (fun error =>
             perform (ConsoleError "Failed to create emergency alert" error) ;;
             Throw error)
  end.

Definition getNotificationById (id : string) : option Notification.t :=
  find (fun n => (Notification.id n =? id)%string) notifications.

Definition getFollowedNotifications : list Notification.t :=
  match user with
  | None => []
  | Some user =>
      filter (fun n => includes (Notification.followedBy n) (User.id user))
             notifications
  end.

End Callbacks.

(** ** Sample data *)

Module Sample.

Definition U1 : User.t :=
  User.Build "U1" "u1@campus.example" "Uma One" "Physics" Role.user
             "2024-01-01T08:00:00.000Z".
Definition U2 : User.t :=
  User.Build "U2" "u2@campus.example" "Udo Two" "History" Role.user
             "2024-01-02T08:00:00.000Z".
Definition A1 : User.t :=
  User.Build "A1" "admin@campus.example" "Ada Admin" "Security" Role.admin
             "2024-01-03T08:00:00.000Z".

Definition entrance : Location.t := Location.Build 52 13 (Some "North entrance").

Definition pothole_data : CreateNotificationData.t :=
  CreateNotificationData.Build "hazard" "Pothole" "Deep pothole" entrance None.

(** The record [U1] created from [pothole_data] at 09:00. *)
Definition pothole (followers : list string) : Notification.t :=
  Notification.Build "n1" "hazard" "Pothole" "Deep pothole" entrance None
                     Status.open "U1" "Uma One"
                     "2024-03-01T09:00:00.000Z" "2024-03-01T09:00:00.000Z"
                     followers.

Definition lamp : Notification.t :=
  Notification.Build "n2" "lighting" "Broken lamp" "Lamp is out" entrance None
                     Status.in_progress "U2" "Udo Two"
                     "2024-02-01T09:00:00.000Z" "2024-02-02T09:00:00.000Z"
                     ["U2"].

Definition drill : EmergencyAlert.t :=
  EmergencyAlert.Build "a0" "Drill" "Fire drill at noon"
                       "2024-02-10T09:00:00.000Z" "A1".

(** A store that rejects every call. *)
Definition db_down : Db := fun _ => Rejected (RemoteError "unavailable").

(** A store that fulfils every call: the fetches with [ns] and [alerts],
    the creations with the fresh id [fresh]. *)
Definition db_up (ns : list Notification.t) (alerts : list EmergencyAlert.t)
  (fresh : string) : Db :=
  fun c =>
    match c return Result (reply c) with
    | fetchNotificationsFromDb => Fulfilled ns
    | fetchEmergencyAlertsFromDb => Fulfilled alerts
    | createNotificationInDb _ => Fulfilled fresh
    | updateNotificationInDb _ _ => Fulfilled tt
    | deleteNotificationFromDb _ => Fulfilled tt
    | createEmergencyAlertInDb _ => Fulfilled fresh
    end.

Definition t0 : Timestamp := "2024-03-05T10:00:00.000Z".
Definition t1 : Timestamp := "2024-03-05T10:00:00.250Z".

(** A world at [t0] whose hook holds [ns] and the alert [drill]. *)
Definition world (ns : list Notification.t) (inbox : list Resume) : World :=
  MkWorld (Hook.Build ns [drill] false) t0 [] [] inbox true.

End Sample.

(** ** What a run leaves behind *)

Definition outcome_of {A : Type} (p : Prog A) (w : World) : Outcome A :=
  fst (run p w).

Definition world_after {A : Type} (p : Prog A) (w : World) : World :=
  snd (run p w).

(** The store fulfils every write to the record [id] at resumption [r]. *)
Definition accepts_writes (id : string) (r : Resume) : Prop :=
  forall updates, answer r (updateNotificationInDb id updates) = Fulfilled tt.

(** [n'] is [n] up to its [followedBy] field. *)
Definition same_but_followedBy (n n' : Notification.t) : Prop :=
  Notification.id n' = Notification.id n /\
  Notification.type n' = Notification.type n /\
  Notification.title n' = Notification.title n /\
  Notification.description n' = Notification.description n /\
  Notification.location n' = Notification.location n /\
  Notification.photoUrl n' = Notification.photoUrl n /\
  Notification.status n' = Notification.status n /\
  Notification.createdBy n' = Notification.createdBy n /\
  Notification.createdByName n' = Notification.createdByName n /\
  Notification.createdAt n' = Notification.createdAt n /\
  Notification.updatedAt n' = Notification.updatedAt n.

(** Two follower arrays that hold the same set of ids. *)
Definition same_followers (l l' : list string) : Prop :=
  (forall x, In x l' <-> In x l) /\ (NoDup l -> NoDup l' /\ Permutation l l').

(** What one [toggleFollow] of [userId] does to a record [notificationId]
    of the local sequence. *)
Definition toggled (userId notificationId : string) (n : Notification.t)
  : Notification.t :=
  fst (toggleFollow_step userId notificationId n false).

(** The shape shared by [updateNotificationStatus], [updateNotification]
    and [deleteNotification]: the write [c] is issued and awaited; the local
    sequence becomes [apply date prev] once the write is fulfilled ([date]
    being the clock reading at that moment) and is left alone while the
    write is pending or when it is rejected, in which case the rejection is
    logged under [msg] and thrown again. *)
Definition writes_then_applies (p : Prog unit) (c : DbCall) (msg : string)
  (apply : Timestamp -> list Notification.t -> list Notification.t)
  (w : World) : Prop :=
  calls (world_after p w) = calls w ++ [c] /\
  match inbox w with
  | [] => outcome_of p w = Pending /\ hook (world_after p w) = hook w
  | r :: _ =>
      match answer r c with
      | Fulfilled _ =>
          outcome_of p w = Returned tt /\
          hook (world_after p w) =
            Hook.Build (apply (at_time r) (Hook.notifications (hook w)))
                       (Hook.emergencyAlerts (hook w))
                       (Hook.loading (hook w))
      | Rejected e =>
          outcome_of p w = Threw e /\
          hook (world_after p w) = hook w /\
          console (world_after p w) = console w ++ [(msg, e)]
      end
  end.

(** ** The session hook ([contexts/auth.tsx]) *)

Module Auth.

(** Modelled from the spec: [NotificationPreferences] of [@/types]; its
    three keys are those of the initial state of the hook. *)
Record NotificationPreferences : Type := MkPreferences
  { pushEnabled : bool;
    emailEnabled : bool;
    emergencyAlerts : bool }.

(** [AuthState] *)
Record AuthState : Type := MkAuthState
  { user : option User.t;
    isLoading : bool;
    isAuthenticated : bool;
    preferences : NotificationPreferences }.

(** The argument of [useState]. *)
Definition initialState : AuthState :=
  MkAuthState None true false (MkPreferences true true true).

(** The part of a Firebase user the hook reads. *)
Record FirebaseUser : Type := MkFirebaseUser { uid : string }.

(** A value caught by [catch (error: any)]; only its [code] property is
    read, and it may be missing. *)
Record AuthError : Type := MkAuthError { code : option string }.

(** [Partial<User>] *)
Record PartialUser : Type := MkPartialUser
  { p_id : option string;
    p_email : option string;
    p_fullName : option string;
    p_department : option string;
    p_role : option Role.t;
    p_createdAt : option Timestamp }.

(** [{ success, error? }] *)
Record AuthResult : Type := MkAuthResult
  { success : bool;
    error : option string }.

Inductive Settled (A : Type) : Type :=
| Resolved (a : A)
| Failed (e : AuthError).
Arguments Resolved {A} a.
Arguments Failed {A} e.

(** The asynchronous functions the hook awaits: two of
    [@/services/database], three of [firebase/auth] (their [auth] argument
    is the one configured instance) and [AsyncStorage.setItem], whose value
    is [JSON.stringify] of the preferences given here. *)
Inductive Call : Type :=
| getUserProfile (uid : string)
| createUserProfile (u : User.t)
| signInWithEmailAndPassword (email password : string)
| createUserWithEmailAndPassword (email password : string)
| signOut
| setItem (key : string) (value : NotificationPreferences).

Definition reply (c : Call) : Type :=
  match c with
  | getUserProfile _ => option User.t
  | createUserProfile _ => unit
  | signInWithEmailAndPassword _ _ => FirebaseUser
  | createUserWithEmailAndPassword _ _ => FirebaseUser
  | signOut => unit
  | setItem _ _ => unit
  end.

Record Resume : Type := MkResume
  { answer : forall c : Call, Settled (reply c);
    at_time : Timestamp }.

Inductive LogEntry : Type :=
| ConsoleError (msg : string) (e : AuthError)
| ConsoleWarn (msg : string) (arg : option string).

Record World : Type := MkWorld
  { state : AuthState;
    now : Timestamp;
    calls : list Call;
    console : list LogEntry;
    inbox : list Resume }.

Inductive Effect : Type :=
| NewDate
| SetState (f : AuthState -> AuthState)
| Log (entry : LogEntry)
| Await (c : Call).

Definition handed_back (e : Effect) : Type :=
  match e with
  | NewDate => Timestamp
  | SetState _ => unit
  | Log _ => unit
  | Await c => Settled (reply c)
  end.

Inductive Prog (A : Type) : Type :=
| Ret (a : A)
| Throw (e : AuthError)
| Act (e : Effect) (k : handed_back e -> Prog A).
Arguments Ret {A} a.
Arguments Throw {A} e.
Arguments Act {A} e k.

Fixpoint bind {A B : Type} (p : Prog A) (f : A -> Prog B) : Prog B :=
  match p with
  | Ret a => f a
  | Throw e => Throw e
  | Act e k => Act e (fun x => bind (k x) f)
  end.

Fixpoint try_catch {A : Type} (p : Prog A) (h : AuthError -> Prog A)
  : Prog A :=
  match p with
  | Ret a => Ret a
  | Throw e => h e
  | Act e k => Act e (fun x => try_catch (k x) h)
  end.

Definition perform (e : Effect) : Prog (handed_back e) := Act e Ret.

Definition await (c : Call) : Prog (reply c) :=
  Act (Await c) (fun r =>
    match r with
    | Resolved v => Ret v
    | Failed e => Throw e
    end).

Declare Scope auth_scope.
Delimit Scope auth_scope with auth.
Notation "x <- p ;; q" := (bind p (fun x => q))
  (at level 100, p at next level, right associativity) : auth_scope.
Notation "p ;; q" := (bind p (fun _ => q))
  (at level 100, right associativity) : auth_scope.

Inductive Outcome (A : Type) : Type :=
| Returned (a : A)
| Threw (e : AuthError)
| Pending.
Arguments Returned {A} a.
Arguments Threw {A} e.
Arguments Pending {A}.

(** [run p w]: the outcome of the callback and the world it leaves; an
    [await] takes the next resumption of the inbox, and the callback stays
    suspended when there is none. *)
Fixpoint run {A : Type} (p : Prog A) (w : World) : Outcome A * World :=
  match p with
  | Ret a => (Returned a, w)
  | Throw e => (Threw e, w)
  | Act e k =>
      match e return (handed_back e -> Prog A) -> Outcome A * World with
      | NewDate => fun k => run (k (now w)) w
      | SetState f => fun k =>
          run (k tt) (MkWorld (f (state w)) (now w) (calls w) (console w) (inbox w))
      | Log entry => fun k =>
          run (k tt)
              (MkWorld (state w) (now w) (calls w) (console w ++ [entry]) (inbox w))
      | Await c => fun k =>
          match inbox w with
          | [] =>
              (Pending,
               MkWorld (state w) (now w) (calls w ++ [c]) (console w) [])
          | r :: rest =>
              run (k (answer r c))
                  (MkWorld (state w) (at_time r) (calls w ++ [c]) (console w) rest)
          end
      end k
  end.

Local Open Scope auth_scope.

(** [error.code === s] *)
Definition code_is (e : AuthError) (s : string) : bool :=
  match code e with
  | Some c => (c =? s)%string
  | None => false
  end.

(** The function given to [onAuthStateChanged]. *)
Definition onAuthStateChanged_callback (firebaseUser : option FirebaseUser)
  : Prog unit :=
  match firebaseUser with
  | Some firebaseUser =>
      try_catch
        (userProfile <- await (getUserProfile (uid firebaseUser)) ;;
         match userProfile with
         | Some userProfile =>
             perform (SetState (fun prev =>
               MkAuthState (Some userProfile) false true (preferences prev)))
         | None =>
             perform (Log (ConsoleWarn "User profile not found for"
                                       (Some (uid firebaseUser)))) ;;
             perform (SetState (fun prev =>
               MkAuthState None false false (preferences prev)))
         end)
        (fun error =>
           perform (Log (ConsoleError "Error fetching user profile:" error)) ;;
           perform (SetState (fun prev =>
             MkAuthState None false false (preferences prev))))
  | None =>
      perform (SetState (fun prev =>
        MkAuthState None false false (preferences prev)))
  end.

Definition login (email password : string) : Prog AuthResult :=
  try_catch
    (await (signInWithEmailAndPassword email password) ;;
     Ret (MkAuthResult true None))
    (fun error =>
       perform (Log (ConsoleError "Login error:" error)) ;;
       let errorMessage :=
         if code_is error "auth/invalid-credential"
         then "Invalid email or password"
         else if code_is error "auth/user-not-found"
         then "User not found"
         else if code_is error "auth/wrong-password"
         then "Invalid password"
         else "An error occurred during login" in
       Ret (MkAuthResult false (Some errorMessage))).

Definition register (email password fullName department : string)
  : Prog AuthResult :=
  try_catch
    (userCredential <- await (createUserWithEmailAndPassword email password) ;;
     let firebaseUser := userCredential in
     createdAt <- perform NewDate ;;
     let newUser :=
       User.Build (uid firebaseUser) email fullName department Role.user
                  createdAt in
     await (createUserProfile newUser) ;;
     Ret (MkAuthResult true None))
    (fun error =>
       perform (Log (ConsoleError "Registration error:" error)) ;;
       let errorMessage :=
         if code_is error "auth/email-already-in-use"
         then "Email already registered"
         else if code_is error "auth/weak-password"
         then "Password is too weak"
         else "An error occurred during registration" in
       Ret (MkAuthResult false (Some errorMessage))).

Definition logout : Prog unit :=
  try_catch
    (await signOut ;; Ret tt)
    (fun error => perform (Log (ConsoleError "Logout error:" error))).

Definition updatePreferences (newPreferences : NotificationPreferences)
  : Prog unit :=
  try_catch
    (await (setItem "preferences" newPreferences) ;;
     perform (SetState (fun prev =>
       MkAuthState (user prev) (isLoading prev) (isAuthenticated prev)
                   newPreferences)))
    (fun error =>
       perform (Log (ConsoleError "Failed to update preferences:" error))).

Definition updateProfile (updates : PartialUser) : Prog unit :=
  try_catch
    (perform (Log (ConsoleWarn
       "Update profile not fully implemented with Firestore sync yet" None)))
    (fun error =>
       perform (Log (ConsoleError "Failed to update profile:" error))).

(** What can happen to the hook: Firebase notifies the listener, or a
    caller invokes one of the returned callbacks. *)
Inductive Op : Type :=
| AuthStateChanged (firebaseUser : option FirebaseUser)
| Login (email password : string)
| Register (email password fullName department : string)
| Logout
| UpdatePreferences (newPreferences : NotificationPreferences)
| UpdateProfile (updates : PartialUser).

(** The world after one of them has run as far as the inbox lets it. *)
Definition after (o : Op) (w : World) : World :=
  match o with
  | AuthStateChanged firebaseUser =>
      snd (run (onAuthStateChanged_callback firebaseUser) w)
  | Login email password => snd (run (login email password) w)
  | Register email password fullName department =>
      snd (run (register email password fullName department) w)
  | Logout => snd (run logout w)
  | UpdatePreferences newPreferences =>
      snd (run (updatePreferences newPreferences) w)
  | UpdateProfile updates => snd (run (updateProfile updates) w)
  end.

Definition after_all (ops : list Op) (w : World) : World :=
  fold_left (fun w o => after o w) ops w.

(** The session flags agree with each other: the hook reports an
    authenticated session exactly when it holds a user, and holds none
    while it is still loading. *)
Definition consistent (s : AuthState) : Prop :=
  (isAuthenticated s = true <-> user s <> None) /\
  (isLoading s = true -> user s = None).

(** A callback invoked on a freshly mounted hook. *)
Definition mounted (date : Timestamp) (inbox : list Resume) : World :=
  MkWorld initialState date [] [] inbox.

End Auth.

(** ** Lemmas on the array helpers *)

Unset Implicit Arguments.

Lemma includes_In (l : list string) (x : string) :
  includes l x = true <-> In x l.
Proof.
  unfold includes. rewrite existsb_exists. split.
  - intros [y [Hy Heq]]. apply String.eqb_eq in Heq. now subst.
  - intros H. exists x. split; [assumption | apply String.eqb_refl].
Qed.

Lemma includes_false (l : list string) (x : string) :
  includes l x = false <-> ~ In x l.
Proof.
  rewrite <- includes_In. destruct (includes l x); split; congruence.
Qed.

Lemma In_without (l : list string) (x y : string) :
  In y (without l x) <-> In y l /\ y <> x.
Proof.
  unfold without. rewrite filter_In, negb_true_iff, String.eqb_neq. tauto.
Qed.

Lemma without_absent (l : list string) (x : string) :
  ~ In x l -> without l x = l.
Proof.
  induction l as [|a l IH]; simpl; intros H; [reflexivity|].
  destruct (String.eqb_spec a x) as [->|Hne]; simpl.
  - exfalso. apply H. now left.
  - f_equal. apply IH. intros Hin. apply H. now right.
Qed.

Lemma without_app (l l' : list string) (x : string) :
  without (l ++ l') x = without l x ++ without l' x.
Proof. unfold without. apply filter_app. Qed.

Lemma without_self (x : string) : without [x] x = [].
Proof. unfold without. simpl. now rewrite String.eqb_refl. Qed.

Lemma NoDup_without (l : list string) (x : string) :
  NoDup l -> NoDup (without l x).
Proof. unfold without. apply NoDup_filter. Qed.

Lemma NoDup_snoc (l : list string) (x : string) :
  NoDup l -> ~ In x l -> NoDup (l ++ [x]).
Proof.
  intros Hl Hx. induction Hl as [|a l Ha Hl IH]; simpl.
  - constructor; [intros [] | constructor].
  - constructor.
    + rewrite in_app_iff. simpl. intros [H|[H|[]]].
      * contradiction.
      * subst. apply Hx. now left.
    + apply IH. intros H. apply Hx. now right.
Qed.

(** Unfollowing and following again gives back the same set. *)
Lemma same_followers_refollow (l : list string) (x : string) :
  In x l -> same_followers l (without l x ++ [x]).
Proof.
  intros Hin.
  assert (Hmem : forall y, In y (without l x ++ [x]) <-> In y l).
  { intros y. rewrite in_app_iff, In_without. simpl. split.
    - intros [[H _]|[<-|[]]]; assumption.
    - intros H. destruct (string_dec y x) as [->|Hne]; [right; now left|].
      left. now split. }
  split; [exact Hmem|].
  intros Hnd.
  assert (Hnd' : NoDup (without l x ++ [x])).
  { apply NoDup_snoc; [now apply NoDup_without|].
    rewrite In_without. intros [_ H]. now apply H. }
  split; [exact Hnd'|].
  apply NoDup_Permutation; [assumption | assumption|].
  intros y. symmetry. apply Hmem.
Qed.

Lemma same_followers_refl (l : list string) : same_followers l l.
Proof. split; [tauto | intros H; split; [assumption | reflexivity]]. Qed.

Lemma find_filter_negb {A : Type} (f : A -> bool) (l : list A) :
  find f (filter (fun a => negb (f a)) l) = None.
Proof.
  induction l as [|a l IH]; simpl; [reflexivity|].
  destruct (f a) eqn:E; simpl; [assumption|]. now rewrite E.
Qed.

(** ** The runs of the three write-first mutations *)

Lemma updateNotificationStatus_run (id : string) (status : Status.t)
  (w : World) :
  writes_then_applies
    (updateNotificationStatus id status)
    (updateNotificationInDb id (Partial.of_status status (now w)))
    "Failed to update status"
    (fun date prev =>
       map (fun n => if (Notification.id n =? id)%string
                     then Notification.with_status n status date else n)
           prev)
    w.
Proof.
  unfold writes_then_applies, outcome_of, world_after,
    updateNotificationStatus.
  simpl. destruct (inbox w) as [|r rest]; simpl.
  - auto.
  - destruct (answer r _) as [[]|e]; simpl; auto.
Qed.

Lemma updateNotification_run (id : string) (updates : Partial.t) (w : World) :
  writes_then_applies
    (updateNotification id updates)
    (updateNotificationInDb id (Partial.with_updatedAt updates (now w)))
    "Failed to update notification"
    (fun _ prev =>
       map (fun n => if (Notification.id n =? id)%string
                     then Notification.assign n updates (now w) else n)
           prev)
    w.
Proof.
  unfold writes_then_applies, outcome_of, world_after, updateNotification.
  simpl. destruct (inbox w) as [|r rest]; simpl.
  - auto.
  - destruct (answer r _) as [[]|e]; simpl; auto.
Qed.

Lemma deleteNotification_run (id : string) (w : World) :
  writes_then_applies
    (deleteNotification id)
    (deleteNotificationFromDb id)
    "Failed to delete notification"
    (fun _ prev =>
       filter (fun n => negb (Notification.id n =? id)%string) prev)
    w.
Proof.
  unfold writes_then_applies, outcome_of, world_after, deleteNotification.
  simpl. destruct (inbox w) as [|r rest]; simpl.
  - auto.
  - destruct (answer r _) as [[]|e]; simpl; auto.
Qed.

(** ** delete *)

(** C1, as the code has it: when [delete(id)] is invoked on a record of the
    local sequence and the remote delete is rejected, the rejection is thrown
    again, the hook state is what it was and [getById(id)] still returns the
    record; the record is gone from the local sequence only when the remote
    delete was fulfilled. *)
Theorem deleteNotification_removes_only_when_fulfilled :
  forall (w : World) (id : string) (n : Notification.t)
         (r : Resume) (rest : list Resume),
    getNotificationById (Hook.notifications (hook w)) id = Some n ->
    inbox w = r :: rest ->
    let w' := world_after (deleteNotification id) w in
    match answer r (deleteNotificationFromDb id) with
    | Rejected e =>
        outcome_of (deleteNotification id) w = Threw e /\
        hook w' = hook w /\
        getNotificationById (Hook.notifications (hook w')) id = Some n
    | Fulfilled _ =>
        outcome_of (deleteNotification id) w = Returned tt /\
        getNotificationById (Hook.notifications (hook w')) id = None
    end.
Proof.
  intros w id n r rest Hn Hin w'. subst w'.
  destruct (deleteNotification_run id w) as [_ H].
  rewrite Hin in H.
  destruct (answer r (deleteNotificationFromDb id)) as [u|e].
  - destruct H as [Ho Hh]. split; [assumption|].
    rewrite Hh. simpl. unfold getNotificationById.
    apply (find_filter_negb (fun n0 => (Notification.id n0 =? id)%string)).
  - destruct H as [Ho [Hh _]]. repeat split; [assumption | assumption|].
    rewrite Hh. assumption.
Qed.

Lemma deleteNotification_removes_only_when_fulfilled_witness :
  let w := Sample.world [Sample.pothole ["U1"]; Sample.lamp]
                        [MkResume Sample.db_down Sample.t1] in
  outcome_of (deleteNotification "n1") w = Threw (RemoteError "unavailable") /\
  hook (world_after (deleteNotification "n1") w) = hook w /\
  getNotificationById
    (Hook.notifications (hook (world_after (deleteNotification "n1") w))) "n1"
  = Some (Sample.pothole ["U1"]).
Proof.
  exact (deleteNotification_removes_only_when_fulfilled
           (Sample.world [Sample.pothole ["U1"]; Sample.lamp]
                         [MkResume Sample.db_down Sample.t1])
           "n1" (Sample.pothole ["U1"])
           (MkResume Sample.db_down Sample.t1) [] eq_refl eq_refl).
Defined.

(** C1 as stated fails: the remote delete of ["n1"] is rejected, the
    callback throws, and [getById("n1")] still returns the record. *)
Lemma deleteNotification_rejected_record_still_there :
  let w := Sample.world [Sample.pothole ["U1"]; Sample.lamp]
                        [MkResume Sample.db_down Sample.t1] in
  let w' := world_after (deleteNotification "n1") w in
  getNotificationById (Hook.notifications (hook w)) "n1"
    = Some (Sample.pothole ["U1"]) /\
  calls w' = [deleteNotificationFromDb "n1"] /\
  outcome_of (deleteNotification "n1") w = Threw (RemoteError "unavailable") /\
  getNotificationById (Hook.notifications (hook w')) "n1" <> None.
Proof.
  repeat split; try reflexivity. vm_compute. discriminate.
Qed.

(** ** updateStatus, updateFields, delete *)

(** C2, as the code has it: each of [updateStatus], [updateFields] and
    [delete] issues its remote write first; the local sequence is unchanged
    while the write is pending, takes the new value once the write is
    fulfilled, and is unchanged when the write is rejected, in which case
    the rejection is logged and thrown again. *)
Theorem mutations_write_before_applying :
  forall (w : World) (id : string) (status : Status.t) (updates : Partial.t),
    writes_then_applies
      (updateNotificationStatus id status)
      (updateNotificationInDb id (Partial.of_status status (now w)))
      "Failed to update status"
      (fun date prev =>
         map (fun n => if (Notification.id n =? id)%string
                       then Notification.with_status n status date else n)
             prev)
      w /\
    writes_then_applies
      (updateNotification id updates)
      (updateNotificationInDb id (Partial.with_updatedAt updates (now w)))
      "Failed to update notification"
      (fun _ prev =>
         map (fun n => if (Notification.id n =? id)%string
                       then Notification.assign n updates (now w) else n)
             prev)
      w /\
    writes_then_applies
      (deleteNotification id)
      (deleteNotificationFromDb id)
      "Failed to delete notification"
      (fun _ prev =>
         filter (fun n => negb (Notification.id n =? id)%string) prev)
      w.
Proof.
  intros w id status updates.
  split; [apply updateNotificationStatus_run|].
  split; [apply updateNotification_run | apply deleteNotification_run].
Qed.

(** C2 as stated fails: [updateStatus("n1", resolved)] on a record of the
    local sequence.  While the remote write is pending the record still has
    status [open]; when the write is rejected the callback throws and the
    record still has status [open]. *)
Lemma updateNotificationStatus_not_applied_early :
  let ns := [Sample.pothole ["U1"]; Sample.lamp] in
  let pending := Sample.world ns [] in
  let rejected := Sample.world ns [MkResume Sample.db_down Sample.t1] in
  let status_after w :=
    option_map Notification.status
      (getNotificationById
         (Hook.notifications
            (hook (world_after
                     (updateNotificationStatus "n1" Status.resolved) w)))
         "n1") in
  outcome_of (updateNotificationStatus "n1" Status.resolved) pending
    = Pending /\
  status_after pending = Some Status.open /\
  outcome_of (updateNotificationStatus "n1" Status.resolved) rejected
    = Threw (RemoteError "unavailable") /\
  status_after rejected = Some Status.open /\
  Some Status.open <> Some Status.resolved.
Proof.
  repeat split; try reflexivity. discriminate.
Qed.

(** ** refresh *)

(** C8: [refresh()] issues the two bulk fetches together.  While they are
    outstanding [loading] is [true] and both sequences are as before.  Once
    they have settled the callback returns and [loading] is [false]: if both
    were fulfilled the two sequences are replaced by what was fetched; if
    either was rejected both sequences are exactly as before and the
    rejection is logged (the one that came first when both were
    rejected). *)
Theorem refreshNotifications_all_or_nothing :
  forall (w : World),
    let w' := world_after refreshNotifications w in
    calls w' = calls w ++ [fetchNotificationsFromDb; fetchEmergencyAlertsFromDb] /\
    match inbox w with
    | [] =>
        outcome_of refreshNotifications w = Pending /\
        Hook.loading (hook w') = true /\
        Hook.notifications (hook w') = Hook.notifications (hook w) /\
        Hook.emergencyAlerts (hook w') = Hook.emergencyAlerts (hook w)
    | r :: _ =>
        outcome_of refreshNotifications w = Returned tt /\
        Hook.loading (hook w') = false /\
        match answer r fetchNotificationsFromDb,
              answer r fetchEmergencyAlertsFromDb with
        | Fulfilled notificationsData, Fulfilled emergencyAlertsData =>
            Hook.notifications (hook w') = notificationsData /\
            Hook.emergencyAlerts (hook w') = emergencyAlertsData /\
            console w' = console w
        | Rejected e, Fulfilled _ | Fulfilled _, Rejected e =>
            Hook.notifications (hook w') = Hook.notifications (hook w) /\
            Hook.emergencyAlerts (hook w') = Hook.emergencyAlerts (hook w) /\
            console w' =
              console w ++ [("Failed to fetch notifications or alerts", e)]
        | Rejected e1, Rejected e2 =>
            Hook.notifications (hook w') = Hook.notifications (hook w) /\
            Hook.emergencyAlerts (hook w') = Hook.emergencyAlerts (hook w) /\
            console w' =
              console w ++
              [("Failed to fetch notifications or alerts",
                if second_settles_first r then e2 else e1)]
        end
    end.
Proof.
  intros w. unfold outcome_of, world_after, refreshNotifications. simpl.
  destruct (inbox w) as [|r rest]; simpl.
  - auto.
  - destruct (answer r fetchNotificationsFromDb) as [ns|e];
      destruct (answer r fetchEmergencyAlertsFromDb) as [alerts|e'];
      simpl; auto 10.
Qed.

(** ** createIncident *)

(** C4: without an active identity [createIncident] throws
    [NotAuthenticated] and touches nothing.  With an active identity it
    issues the remote create, carrying status [open], the identity's id and
    full name, the issue time as both timestamps and the identity's id as
    the only follower; the local sequence is unchanged while that write is
    pending and when it is rejected (the rejection is thrown on); once it is
    fulfilled with an id, the record made of that id and the data written
    is put in front of the local sequence and returned. *)
Theorem createNotification_writes_then_prepends :
  forall (user : option User.t) (data : CreateNotificationData.t) (w : World),
    let w' := world_after (createNotification user data) w in
    match user with
    | None =>
        outcome_of (createNotification user data) w = Threw NotAuthenticated /\
        w' = w
    | Some u =>
        let written :=
          NotificationData.Build
            (CreateNotificationData.type data)
            (CreateNotificationData.title data)
            (CreateNotificationData.description data)
            (CreateNotificationData.location data)
            (CreateNotificationData.photoUrl data)
            Status.open (User.id u) (User.fullName u) (now w) (now w)
            [User.id u] in
        calls w' = calls w ++ [createNotificationInDb written] /\
        match inbox w with
        | [] =>
            outcome_of (createNotification user data) w = Pending /\
            hook w' = hook w
        | r :: _ =>
            match answer r (createNotificationInDb written) with
            | Rejected e =>
                outcome_of (createNotification user data) w = Threw e /\
                hook w' = hook w
            | Fulfilled id =>
                let record := Notification.of_data id written in
                outcome_of (createNotification user data) w = Returned record /\
                Hook.notifications (hook w') =
                  record :: Hook.notifications (hook w) /\
                nth_error (Hook.notifications (hook w')) 0 = Some record /\
                Hook.emergencyAlerts (hook w') = Hook.emergencyAlerts (hook w) /\
                Notification.id record = id /\
                Notification.status record = Status.open /\
                Notification.createdBy record = User.id u /\
                Notification.createdByName record = User.fullName u /\
                Notification.followedBy record = [User.id u] /\
                Notification.createdAt record = now w /\
                Notification.updatedAt record = now w
            end
        end
    end.
Proof.
  intros user data w.
  unfold outcome_of, world_after, createNotification.
  destruct user as [u|]; simpl; [|auto].
  destruct (inbox w) as [|r rest]; simpl.
  - auto.
  - destruct (answer r _) as [id|e]; simpl; auto 15.
Qed.

(** ** createEmergencyAlert *)

(** C5: when no identity is active or the active identity is not an admin,
    [createEmergencyAlert] throws [NotAuthorized] and leaves the world as it
    was: no remote call is issued and the alert sequence is unchanged.  For
    an admin the remote create is issued; once it is fulfilled with an id,
    the alert carrying that id is put in front of the local alert sequence
    and returned; while it is pending or when it is rejected the alert
    sequence is unchanged. *)
Theorem createEmergencyAlert_admin_only :
  forall (user : option User.t) (title message : string) (w : World),
    let p := createEmergencyAlert user title message in
    let w' := world_after p w in
    match user with
    | None => outcome_of p w = Threw NotAuthorized /\ w' = w
    | Some u =>
        match User.role u with
        | Role.user => outcome_of p w = Threw NotAuthorized /\ w' = w
        | Role.admin =>
            let written := AlertData.Build title message (now w) (User.id u) in
            calls w' = calls w ++ [createEmergencyAlertInDb written] /\
            match inbox w with
            | [] => outcome_of p w = Pending /\ hook w' = hook w
            | r :: _ =>
                match answer r (createEmergencyAlertInDb written) with
                | Rejected e => outcome_of p w = Threw e /\ hook w' = hook w
                | Fulfilled id =>
                    let alert := EmergencyAlert.of_data id written in
                    outcome_of p w = Returned alert /\
                    EmergencyAlert.id alert = id /\
                    Hook.emergencyAlerts (hook w') =
                      alert :: Hook.emergencyAlerts (hook w) /\
                    Hook.notifications (hook w') = Hook.notifications (hook w)
                end
            end
        end
    end.
Proof.
  intros user title message w.
  unfold outcome_of, world_after, createEmergencyAlert.
  destruct user as [u|]; simpl; [|auto].
  destruct (User.role u); simpl; [auto|].
  destruct (inbox w) as [|r rest]; simpl.
  - auto.
  - destruct (answer r _) as [id|e]; simpl; auto.
Qed.

(** ** toggleFollow: the update of the local sequence *)

Lemma toggleFollow_step_fst (u id : string) (n : Notification.t) (v : bool) :
  fst (toggleFollow_step u id n v) = toggled u id n.
Proof.
  unfold toggled, toggleFollow_step.
  destruct (negb (Notification.id n =? id)%string); reflexivity.
Qed.

Lemma map_capturing_toggle (u id : string) (l : list Notification.t) (v : bool) :
  fst (map_capturing (toggleFollow_step u id) l v) = map (toggled u id) l.
Proof.
  revert v. induction l as [|n l IH]; intros v; simpl; [reflexivity|].
  destruct (toggleFollow_step u id n v) as [n' v1] eqn:En.
  specialize (IH v1).
  destruct (map_capturing (toggleFollow_step u id) l v1) as [l' v2].
  simpl in *. f_equal; [|assumption].
  rewrite <- (toggleFollow_step_fst u id n v), En. reflexivity.
Qed.

Lemma toggled_other (u id : string) (n : Notification.t) :
  Notification.id n <> id -> toggled u id n = n.
Proof.
  intros H. unfold toggled, toggleFollow_step.
  apply String.eqb_neq in H. now rewrite H.
Qed.

Lemma toggled_id (u id : string) (n : Notification.t) :
  Notification.id (toggled u id n) = Notification.id n.
Proof.
  unfold toggled, toggleFollow_step.
  destruct (negb (Notification.id n =? id)%string); reflexivity.
Qed.

Lemma toggled_frame (u id : string) (n : Notification.t) :
  same_but_followedBy n (toggled u id n).
Proof.
  unfold toggled, toggleFollow_step, same_but_followedBy.
  destruct (negb (Notification.id n =? id)%string); simpl; repeat split.
Qed.

Lemma toggled_absent (u id : string) (l : list Notification.t) :
  ~ In id (map Notification.id l) -> map (toggled u id) l = l.
Proof.
  induction l as [|n l IH]; simpl; intros H; [reflexivity|].
  rewrite toggled_other by (intros E; apply H; now left).
  f_equal. apply IH. intros Hin. apply H. now right.
Qed.

Lemma map_capturing_absent (u id : string) (l : list Notification.t) (v : bool) :
  ~ In id (map Notification.id l) ->
  snd (map_capturing (toggleFollow_step u id) l v) = v.
Proof.
  revert v. induction l as [|n l IH]; intros v H; simpl; [reflexivity|].
  simpl in H.
  assert (Hn : Notification.id n <> id) by (intros E; apply H; now left).
  unfold toggleFollow_step at 1.
  apply String.eqb_neq in Hn. rewrite Hn. simpl.
  specialize (IH v (fun Hin => H (or_intror Hin))).
  destruct (map_capturing (toggleFollow_step u id) l v) as [l' v2].
  exact IH.
Qed.

(** Toggling a record twice gives back the record, with the same set of
    followers. *)
Lemma toggled_twice (u id : string) (n : Notification.t) :
  same_but_followedBy n (toggled u id (toggled u id n)) /\
  same_followers (Notification.followedBy n)
                 (Notification.followedBy (toggled u id (toggled u id n))).
Proof.
  split.
  - destruct (toggled_frame u id n) as (H1&H2&H3&H4&H5&H6&H7&H8&H9&H10&H11).
    destruct (toggled_frame u id (toggled u id n))
      as (K1&K2&K3&K4&K5&K6&K7&K8&K9&K10&K11).
    unfold same_but_followedBy. repeat split; congruence.
  - unfold toggled, toggleFollow_step.
    destruct (Notification.id n =? id)%string eqn:E; simpl.
    + destruct (includes (Notification.followedBy n) u) eqn:I; simpl;
        rewrite E; simpl.
      * assert (I' : includes (without (Notification.followedBy n) u) u = false).
        { apply includes_false. rewrite In_without. intros [_ H]. now apply H. }
        rewrite I'. apply same_followers_refollow. now apply includes_In.
      * assert (I' : includes (Notification.followedBy n ++ [u]) u = true).
        { apply includes_In. rewrite in_app_iff. right. now left. }
        rewrite I', without_app, without_self, app_nil_r.
        rewrite without_absent by now apply includes_false.
        apply same_followers_refl.
    + rewrite E. simpl. apply same_followers_refl.
Qed.

(** ** toggleFollow: the run *)

Lemma toggleFollow_run (u : User.t) (c : list Notification.t) (id : string)
  (w : World) :
  let p := toggleFollow (Some u) c id in
  let prev := Hook.notifications (hook w) in
  let isFollowing :=
    if eager w
    then snd (map_capturing (toggleFollow_step (User.id u) id) prev false)
    else false in
  let w1 := set_notifications w (map (toggled (User.id u) id) prev) in
  match find (fun n => (Notification.id n =? id)%string) c with
  | None => run p w = (Returned tt, w1)
  | Some n =>
      let write :=
        updateNotificationInDb id
          (Partial.of_followedBy
             (if isFollowing
              then without (Notification.followedBy n) (User.id u)
              else Notification.followedBy n ++ [User.id u])) in
      match inbox w with
      | [] => run p w = (Pending, issue w1 [write])
      | r :: rest =>
          let w2 := resume (issue w1 [write]) r rest in
          match answer r write with
          | Fulfilled _ => run p w = (Returned tt, w2)
          | Rejected e =>
              run p w =
                (Returned tt,
                 world_after refreshNotifications
                   (log_error w2 "Failed to toggle follow" e))
          end
      end
  end.
Proof.
  unfold toggleFollow, world_after.
  remember refreshNotifications as refresh eqn:Hrefresh.
  cbn zeta. simpl run.
  pose proof (map_capturing_toggle (User.id u) id
                (Hook.notifications (hook w)) false) as Hfst.
  destruct (map_capturing (toggleFollow_step (User.id u) id)
              (Hook.notifications (hook w)) false) as [l v].
  simpl in Hfst. subst l. simpl snd.
  destruct (find _ c) as [n|]; simpl; [|reflexivity].
  destruct (inbox w) as [|r rest]; simpl; [reflexivity|].
  destruct (answer r _) as [[]|e]; simpl; [reflexivity|].
  match goal with |- context [run refresh ?x] =>
    destruct (run refresh x) as [o w3] end.
  reflexivity.
Qed.

Lemma find_by_id_In (id : string) (l : list Notification.t) :
  In id (map Notification.id l) ->
  exists n, find (fun n => (Notification.id n =? id)%string) l = Some n.
Proof.
  induction l as [|a l IH]; simpl; intros H; [contradiction|].
  destruct (String.eqb_spec (Notification.id a) id) as [E|E].
  - now exists a.
  - destruct H as [H|H]; [contradiction | now apply IH].
Qed.

Lemma find_by_id_absent (id : string) (l : list Notification.t) :
  ~ In id (map Notification.id l) ->
  find (fun n => (Notification.id n =? id)%string) l = None.
Proof.
  induction l as [|a l IH]; simpl; intros H; [reflexivity|].
  destruct (String.eqb_spec (Notification.id a) id) as [E|E].
  - exfalso. apply H. now left.
  - apply IH. intros Hin. apply H. now right.
Qed.

Lemma set_notifications_same (w : World) :
  set_notifications w (Hook.notifications (hook w)) = w.
Proof. destruct w as [[ns alerts l] t cs co ib e]. reflexivity. Qed.

(** A [toggleFollow] whose write is not rejected: the hook state is the
    old one with the record toggled, and exactly one write is issued when
    the snapshot the callback closes over holds the record. *)
Lemma toggleFollow_accepted (u : User.t) (c : list Notification.t)
  (id : string) (w : World) :
  Forall (accepts_writes id) (inbox w) ->
  let p := toggleFollow (Some u) c id in
  hook (world_after p w) =
    Hook.Build (map (toggled (User.id u) id) (Hook.notifications (hook w)))
               (Hook.emergencyAlerts (hook w)) (Hook.loading (hook w)) /\
  Forall (accepts_writes id) (inbox (world_after p w)) /\
  match find (fun n => (Notification.id n =? id)%string) c with
  | None => calls (world_after p w) = calls w
  | Some _ =>
      exists followers,
        calls (world_after p w) =
          calls w ++ [updateNotificationInDb id (Partial.of_followedBy followers)]
  end.
Proof.
  intros Hacc p. subst p. unfold world_after.
  pose proof (toggleFollow_run u c id w) as Hrun. cbn zeta in Hrun.
  destruct (find _ c) as [n|].
  - destruct (inbox w) as [|r rest] eqn:Hin.
    + rewrite Hrun. simpl. rewrite Hin. repeat split; eauto.
    + inversion Hacc as [|r' rest' Hr Hrest]; subst.
      rewrite Hr in Hrun. rewrite Hrun. simpl. repeat split; eauto.
  - rewrite Hrun. simpl. repeat split; auto.
Qed.

(** With the update run at the setter call, a snapshot equal to the cell
    and ids that are unique, the set written to the store is the set
    applied locally. *)
Lemma map_capturing_unique (u id : string) (l : list Notification.t)
  (n : Notification.t) (v : bool) :
  NoDup (map Notification.id l) ->
  find (fun n => (Notification.id n =? id)%string) l = Some n ->
  snd (map_capturing (toggleFollow_step u id) l v)
  = includes (Notification.followedBy n) u.
Proof.
  revert v. induction l as [|a l IH]; intros v Hnd Hfind; simpl in *;
    [discriminate|].
  inversion Hnd as [|x xs Hnotin Hnd']; subst.
  unfold toggleFollow_step at 1.
  destruct (String.eqb_spec (Notification.id a) id) as [E|E]; simpl.
  - injection Hfind as ->.
    pose proof (map_capturing_absent u id l
                  (includes (Notification.followedBy n) u)) as Habs.
    rewrite E in Hnotin. specialize (Habs Hnotin).
    destruct (map_capturing (toggleFollow_step u id) l
                (includes (Notification.followedBy n) u)) as [l' v2].
    exact Habs.
  - specialize (IH v Hnd' Hfind).
    destruct (map_capturing (toggleFollow_step u id) l v) as [l' v2].
    exact IH.
Qed.

Lemma find_by_id_toggled (u id : string) (l : list Notification.t) :
  find (fun n => (Notification.id n =? id)%string) (map (toggled u id) l)
  = option_map (toggled u id)
      (find (fun n => (Notification.id n =? id)%string) l).
Proof.
  induction l as [|a l IH]; simpl; [reflexivity|].
  rewrite toggled_id.
  destruct (Notification.id a =? id)%string; [reflexivity | assumption].
Qed.

Lemma toggleFollow_in_sync (u : User.t) (id : string) (w : World)
  (n : Notification.t) :
  eager w = true ->
  NoDup (map Notification.id (Hook.notifications (hook w))) ->
  getNotificationById (Hook.notifications (hook w)) id = Some n ->
  Forall (accepts_writes id) (inbox w) ->
  let w' := world_after (toggleFollow (Some u) (Hook.notifications (hook w)) id) w in
  exists followers,
    calls w' =
      calls w ++ [updateNotificationInDb id (Partial.of_followedBy followers)] /\
    getNotificationById (Hook.notifications (hook w')) id
    = Some (Notification.with_followedBy n followers).
Proof.
  intros He Hnd Hfind Hacc w'. subst w'. unfold world_after, getNotificationById in *.
  pose proof (toggleFollow_run u (Hook.notifications (hook w)) id w) as Hrun.
  cbn zeta in Hrun. rewrite Hfind, He in Hrun.
  rewrite (map_capturing_unique (User.id u) id _ n false Hnd Hfind) in Hrun.
  assert (Hid : (Notification.id n =? id)%string = true).
  { apply find_some in Hfind. tauto. }
  assert (Hlocal :
    find (fun n0 => (Notification.id n0 =? id)%string)
         (map (toggled (User.id u) id) (Hook.notifications (hook w)))
    = Some (Notification.with_followedBy n
              (if includes (Notification.followedBy n) (User.id u)
               then without (Notification.followedBy n) (User.id u)
               else Notification.followedBy n ++ [User.id u]))).
  { rewrite find_by_id_toggled, Hfind. simpl.
    unfold toggled, toggleFollow_step. rewrite Hid. reflexivity. }
  destruct (inbox w) as [|r rest] eqn:Hin.
  - rewrite Hrun. simpl. eauto.
  - inversion Hacc as [|r' rest' Hr Hrest]; subst.
    rewrite Hr in Hrun. rewrite Hrun. simpl. eauto.
Qed.

(** C3 fails on the code: the follower set sent to the store is computed
    from the [notifications] value the callback closed over, not from the
    value of the cell the local update is applied to.  Here the callback of
    [U2] was created when the record had the follower [U1]; by the time it
    is called the cell holds the followers [U1, U3].  The local update
    gives [U1, U3, U2]; the remote write carries [U1, U2]. *)
Lemma toggleFollow_writes_from_closure :
  let rendered := [Sample.pothole ["U1"]] in
  let w := Sample.world [Sample.pothole ["U1"; "U3"]]
                        [MkResume (Sample.db_up [] [] "x") Sample.t1] in
  let w' := world_after (toggleFollow (Some Sample.U2) rendered "n1") w in
  outcome_of (toggleFollow (Some Sample.U2) rendered "n1") w = Returned tt /\
  map Notification.followedBy (Hook.notifications (hook w'))
    = [["U1"; "U3"; "U2"]] /\
  calls w' =
    [updateNotificationInDb "n1" (Partial.of_followedBy ["U1"; "U2"])].
Proof. repeat split; reflexivity. Qed.

(** The same divergence without any stale snapshot, when React defers the
    update function: [U2] unfollows, the local set becomes [U1], and the
    write, made before [isFollowing] was assigned, adds [U2] once more. *)
Lemma toggleFollow_reads_isFollowing_early :
  let ns := [Sample.pothole ["U1"; "U2"]] in
  let w := MkWorld (Hook.Build ns [] false) Sample.t0 [] []
                   [MkResume (Sample.db_up [] [] "x") Sample.t1] false in
  let w' := world_after (toggleFollow (Some Sample.U2) ns "n1") w in
  map Notification.followedBy (Hook.notifications (hook w')) = [["U1"]] /\
  calls w' =
    [updateNotificationInDb "n1" (Partial.of_followedBy ["U1"; "U2"; "U2"])].
Proof. repeat split; reflexivity. Qed.

Lemma Forall2_map_same {A : Type} (R : A -> A -> Prop) (f : A -> A)
  (l : list A) :
  (forall a, R a (f a)) -> Forall2 R l (map f l).
Proof. intros H. induction l; simpl; constructor; auto. Qed.

Lemma Forall2_same {A : Type} (R : A -> A -> Prop) (l : list A) :
  (forall a, R a a) -> Forall2 R l l.
Proof. intros H. induction l; constructor; auto. Qed.

(** ** toggleFollow: the claims *)

(** Two toggles in a row through callbacks whose snapshots hold the
    record, neither write being rejected: each call issues one remote write
    of its own, and after the second call every record of the local
    sequence is what it was before the first, with the same set of
    followers. *)
Theorem toggleFollow_twice_round_trip :
  forall (u : User.t) (c1 c2 : list Notification.t) (id : string) (w : World),
    In id (map Notification.id (Hook.notifications (hook w))) ->
    In id (map Notification.id c1) ->
    In id (map Notification.id c2) ->
    Forall (accepts_writes id) (inbox w) ->
    let w1 := world_after (toggleFollow (Some u) c1 id) w in
    let w2 := world_after (toggleFollow (Some u) c2 id) w1 in
    Forall2 (fun n n' =>
               same_but_followedBy n n' /\
               same_followers (Notification.followedBy n)
                              (Notification.followedBy n'))
            (Hook.notifications (hook w)) (Hook.notifications (hook w2)) /\
    exists followers1 followers2,
      calls w1 =
        calls w ++
        [updateNotificationInDb id (Partial.of_followedBy followers1)] /\
      calls w2 =
        calls w1 ++
        [updateNotificationInDb id (Partial.of_followedBy followers2)].
Proof.
  intros u c1 c2 id w _ Hc1 Hc2 Hacc w1 w2.
  destruct (toggleFollow_accepted u c1 id w Hacc) as (Hh1 & Hacc1 & Hw1).
  fold w1 in Hh1, Hacc1, Hw1.
  destruct (toggleFollow_accepted u c2 id w1 Hacc1) as (Hh2 & _ & Hw2).
  fold w2 in Hh2, Hw2.
  destruct (find_by_id_In id c1 Hc1) as [n1 Hn1]. rewrite Hn1 in Hw1.
  destruct (find_by_id_In id c2 Hc2) as [n2 Hn2]. rewrite Hn2 in Hw2.
  split.
  - rewrite Hh2, Hh1. simpl. rewrite map_map.
    apply Forall2_map_same. intros n. apply toggled_twice.
  - destruct Hw1 as [f1 Hf1]. destruct Hw2 as [f2 Hf2]. now exists f1, f2.
Qed.

Lemma toggleFollow_twice_round_trip_witness :
  let r := MkResume (Sample.db_up [] [] "x") Sample.t1 in
  let w := Sample.world [Sample.pothole ["U1"]; Sample.lamp] [r; r] in
  let w1 := world_after
              (toggleFollow (Some Sample.U2) [Sample.pothole ["U1"]] "n1") w in
  let w2 := world_after
              (toggleFollow (Some Sample.U2) [Sample.pothole ["U1"; "U2"]] "n1")
              w1 in
  Forall2 (fun n n' =>
             same_but_followedBy n n' /\
             same_followers (Notification.followedBy n)
                            (Notification.followedBy n'))
          (Hook.notifications (hook w)) (Hook.notifications (hook w2)) /\
  exists followers1 followers2,
    calls w1 =
      calls w ++
      [updateNotificationInDb "n1" (Partial.of_followedBy followers1)] /\
    calls w2 =
      calls w1 ++
      [updateNotificationInDb "n1" (Partial.of_followedBy followers2)].
Proof.
  apply (toggleFollow_twice_round_trip Sample.U2
           [Sample.pothole ["U1"]] [Sample.pothole ["U1"; "U2"]] "n1"
           (Sample.world [Sample.pothole ["U1"]; Sample.lamp]
              [MkResume (Sample.db_up [] [] "x") Sample.t1;
               MkResume (Sample.db_up [] [] "x") Sample.t1])).
  - simpl. left. reflexivity.
  - simpl. left. reflexivity.
  - simpl. left. reflexivity.
  - repeat constructor.
Defined.

(** For an id that neither the cell nor the snapshot the callback closes
    over holds, [toggleFollow(id)] returns and leaves the world as it was:
    same local sequence, no remote call. *)
Theorem toggleFollow_unknown_id_noop :
  forall (user : option User.t) (c : list Notification.t) (id : string)
         (w : World),
    ~ In id (map Notification.id (Hook.notifications (hook w))) ->
    ~ In id (map Notification.id c) ->
    run (toggleFollow user c id) w = (Returned tt, w).
Proof.
  intros [u|] c id w Hcell Hc; [|reflexivity].
  pose proof (toggleFollow_run u c id w) as Hrun. cbn zeta in Hrun.
  rewrite (find_by_id_absent id c Hc) in Hrun.
  rewrite Hrun, toggled_absent by assumption.
  now rewrite set_notifications_same.
Qed.

Lemma toggleFollow_unknown_id_noop_witness :
  let w := Sample.world [Sample.pothole ["U1"]; Sample.lamp]
                        [MkResume Sample.db_down Sample.t1] in
  run (toggleFollow (Some Sample.U2) [Sample.pothole ["U1"]; Sample.lamp] "n9") w
  = (Returned tt, w).
Proof.
  apply (toggleFollow_unknown_id_noop (Some Sample.U2)
           [Sample.pothole ["U1"]; Sample.lamp] "n9"
           (Sample.world [Sample.pothole ["U1"]; Sample.lamp]
              [MkResume Sample.db_down Sample.t1])).
  - simpl. intros [H|[H|[]]]; discriminate.
  - simpl. intros [H|[H|[]]]; discriminate.
Defined.

(** C7 fails on the code: whether a write is issued is decided by the
    [notifications] value the callback closed over, not by the cell.  Here
    the cell no longer holds ["n1"] while the snapshot of the callback still
    does: the local sequence is unchanged, and yet a write for ["n1"] goes
    to the store. *)
Lemma toggleFollow_unknown_id_writes_from_snapshot :
  let rendered := [Sample.pothole ["U1"]; Sample.lamp] in
  let w := Sample.world [Sample.lamp]
                        [MkResume (Sample.db_up [] [] "x") Sample.t1] in
  let w' := world_after (toggleFollow (Some Sample.U2) rendered "n1") w in
  ~ In "n1" (map Notification.id (Hook.notifications (hook w))) /\
  Hook.notifications (hook w') = Hook.notifications (hook w) /\
  calls w' =
    calls w ++
    [updateNotificationInDb "n1" (Partial.of_followedBy ["U1"; "U2"])].
Proof.
  repeat split; try reflexivity.
  simpl. intros [H|[]]. discriminate.
Qed.

(** The converse: the cell holds ["n1"] and the snapshot of the callback
    does not.  The record is toggled locally and nothing is written. *)
Lemma toggleFollow_known_id_not_written :
  let w := Sample.world [Sample.pothole ["U1"]]
                        [MkResume (Sample.db_up [] [] "x") Sample.t1] in
  let w' := world_after (toggleFollow (Some Sample.U2) [] "n1") w in
  map Notification.followedBy (Hook.notifications (hook w')) = [["U1"; "U2"]] /\
  calls w' = calls w.
Proof. split; reflexivity. Qed.

(** C6, as the code has it: an identity toggles a record of the local
    sequence twice in a row and neither write is rejected.  Whatever
    snapshot each callback closed over, and whenever React runs the update
    functions, after the second call every record of the local sequence is
    what it was before the first, with the same set of followers. *)
Theorem toggleFollow_twice_restores_followers :
  forall (u : User.t) (c1 c2 : list Notification.t) (eager2 : bool)
         (id : string) (w : World),
    In id (map Notification.id (Hook.notifications (hook w))) ->
    Forall (accepts_writes id) (inbox w) ->
    let w1 := world_after (toggleFollow (Some u) c1 id) w in
    let w2 := world_after (toggleFollow (Some u) c2 id) (set_eager w1 eager2) in
    Forall2 (fun n n' =>
               same_but_followedBy n n' /\
               same_followers (Notification.followedBy n)
                              (Notification.followedBy n'))
            (Hook.notifications (hook w)) (Hook.notifications (hook w2)).
Proof.
  intros u c1 c2 eager2 id w _ Hacc w1 w2.
  destruct (toggleFollow_accepted u c1 id w Hacc) as (Hh1 & Hacc1 & _).
  fold w1 in Hh1, Hacc1.
  destruct (toggleFollow_accepted u c2 id (set_eager w1 eager2) Hacc1)
    as (Hh2 & _ & _).
  fold w2 in Hh2. simpl in Hh2.
  rewrite Hh2, Hh1. simpl. rewrite map_map.
  apply Forall2_map_same. intros n. apply toggled_twice.
Qed.

Lemma toggleFollow_twice_restores_followers_witness :
  let r := MkResume (Sample.db_up [] [] "x") Sample.t1 in
  let w := Sample.world [Sample.pothole ["U1"; "U2"]; Sample.lamp] [r; r] in
  let snapshot := [Sample.pothole ["U1"; "U2"]; Sample.lamp] in
  let w1 := world_after (toggleFollow (Some Sample.U2) snapshot "n1") w in
  let w2 := world_after (toggleFollow (Some Sample.U2) snapshot "n1")
                        (set_eager w1 false) in
  Forall2 (fun n n' =>
             same_but_followedBy n n' /\
             same_followers (Notification.followedBy n)
                            (Notification.followedBy n'))
          (Hook.notifications (hook w)) (Hook.notifications (hook w2)).
Proof.
  apply (toggleFollow_twice_restores_followers Sample.U2
           [Sample.pothole ["U1"; "U2"]; Sample.lamp]
           [Sample.pothole ["U1"; "U2"]; Sample.lamp] false "n1"
           (Sample.world [Sample.pothole ["U1"; "U2"]; Sample.lamp]
              [MkResume (Sample.db_up [] [] "x") Sample.t1;
               MkResume (Sample.db_up [] [] "x") Sample.t1])).
  - simpl. left. reflexivity.
  - repeat constructor.
Defined.

(** C6 as stated fails in two ways.  A rejected write: [U2] toggles
    ["n1"], whose followers are [U1], twice in a row, each time through the
    callback of the latest render; the store rejects the first write, so the
    callback refreshes, and the store's copy of the record has the followers
    [U1, U3]; the second toggle is written and gives [U1, U3, U2], which is
    not the set before the first call.  A snapshot without the record: both
    calls go through a callback that closed over an empty [notifications];
    the follower set is restored, and neither call issues a write. *)
Lemma toggleFollow_twice_fails_as_stated :
  let w := Sample.world [Sample.pothole ["U1"]]
             [MkResume Sample.db_down Sample.t1;
              MkResume (Sample.db_up [Sample.pothole ["U1"; "U3"]] [] "x")
                       Sample.t1;
              MkResume (Sample.db_up [] [] "x") Sample.t1] in
  let w1 := world_after
              (toggleFollow (Some Sample.U2) (Hook.notifications (hook w)) "n1")
              w in
  let w2 := world_after
              (toggleFollow (Some Sample.U2) (Hook.notifications (hook w1)) "n1")
              w1 in
  let v := Sample.world [Sample.pothole ["U1"]]
             [MkResume (Sample.db_up [] [] "x") Sample.t1;
              MkResume (Sample.db_up [] [] "x") Sample.t1] in
  let v1 := world_after (toggleFollow (Some Sample.U2) [] "n1") v in
  let v2 := world_after (toggleFollow (Some Sample.U2) [] "n1") v1 in
  (map Notification.followedBy (Hook.notifications (hook w)) = [["U1"]] /\
   map Notification.followedBy (Hook.notifications (hook w1))
     = [["U1"; "U3"]] /\
   map Notification.followedBy (Hook.notifications (hook w2))
     = [["U1"; "U3"; "U2"]] /\
   calls w2 =
     [updateNotificationInDb "n1" (Partial.of_followedBy ["U1"; "U2"]);
      fetchNotificationsFromDb; fetchEmergencyAlertsFromDb;
      updateNotificationInDb "n1" (Partial.of_followedBy ["U1"; "U3"; "U2"])] /\
   ~ same_followers ["U1"] ["U1"; "U3"; "U2"]) /\
  (In "n1" (map Notification.id (Hook.notifications (hook v))) /\
   map Notification.followedBy (Hook.notifications (hook v1))
     = [["U1"; "U2"]] /\
   map Notification.followedBy (Hook.notifications (hook v2)) = [["U1"]] /\
   calls v2 = []).
Proof.
  split.
  - repeat split; try reflexivity.
    intros [Hmem _].
    assert (H : In "U3" ["U1"]) by (apply Hmem; simpl; auto).
    simpl in H. destruct H as [H|[]]. discriminate.
  - repeat split; try reflexivity. simpl. left. reflexivity.
Qed.

(** C10: the local update of [toggleFollow(id)] keeps the length and order
    of the local sequence, leaves every record with another id as it is,
    and changes nothing but [followedBy] on a record with that id; the alert
    sequence and [loading] are untouched.  (Stated for a write that is not
    rejected: a rejected write is followed by a refresh.) *)
Theorem toggleFollow_frame :
  forall (user : option User.t) (c : list Notification.t) (id : string)
         (w : World),
    Forall (accepts_writes id) (inbox w) ->
    let w' := world_after (toggleFollow user c id) w in
    Forall2 (fun n n' =>
               same_but_followedBy n n' /\
               (Notification.id n <> id -> n' = n))
            (Hook.notifications (hook w)) (Hook.notifications (hook w')) /\
    Hook.emergencyAlerts (hook w') = Hook.emergencyAlerts (hook w) /\
    Hook.loading (hook w') = Hook.loading (hook w).
Proof.
  intros [u|] c id w Hacc w'; subst w'.
  - destruct (toggleFollow_accepted u c id w Hacc) as (Hh & _ & _).
    rewrite Hh. simpl. repeat split.
    apply Forall2_map_same. intros n. split.
    + apply toggled_frame.
    + apply toggled_other.
  - simpl. repeat split.
    apply Forall2_same. intros n. unfold same_but_followedBy.
    repeat split.
Qed.

Lemma toggleFollow_frame_witness :
  let w := Sample.world [Sample.pothole ["U1"]; Sample.lamp] [] in
  let w' := world_after
              (toggleFollow (Some Sample.U2) [Sample.pothole ["U1"]] "n1") w in
  Forall2 (fun n n' =>
             same_but_followedBy n n' /\
             (Notification.id n <> "n1" -> n' = n))
          (Hook.notifications (hook w)) (Hook.notifications (hook w')) /\
  Hook.emergencyAlerts (hook w') = Hook.emergencyAlerts (hook w) /\
  Hook.loading (hook w') = Hook.loading (hook w).
Proof.
  apply (toggleFollow_frame (Some Sample.U2) [Sample.pothole ["U1"]] "n1"
           (Sample.world [Sample.pothole ["U1"]; Sample.lamp] [])).
  simpl. constructor.
Defined.

(** ** updatedAt *)

Lemma Forall2_map_if (id : string) (g : Notification.t -> Notification.t)
  (R : Notification.t -> Notification.t -> Prop) (l : list Notification.t) :
  (forall n, (Notification.id n =? id)%string = true -> R n (g n)) ->
  (forall n, (Notification.id n =? id)%string = false -> R n n) ->
  Forall2 R l
    (map (fun n => if (Notification.id n =? id)%string then g n else n) l).
Proof.
  intros Hyes Hno. apply Forall2_map_same. intros n.
  destruct (Notification.id n =? id)%string eqn:E; auto.
Qed.

(** C9, as the code has it, for a mutation whose remote write is fulfilled.
    [updateFields] writes the issue time as [updatedAt] to the store and
    stores the same value on every record it rewrites locally.
    [updateStatus] writes the issue time as [updatedAt] to the store.
    [toggleFollow] writes no [updatedAt] to the store and leaves the local
    [updatedAt] of every record as it was. *)
Theorem updatedAt_after_successful_mutation :
  forall (w : World) (r : Resume) (rest : list Resume) (id : string),
    inbox w = r :: rest ->
    accepts_writes id r ->
    (forall updates : Partial.t,
        let w' := world_after (updateNotification id updates) w in
        outcome_of (updateNotification id updates) w = Returned tt /\
        (exists written,
            calls w' = calls w ++ [updateNotificationInDb id written] /\
            Partial.updatedAt written = Some (now w)) /\
        Forall2 (fun n n' =>
                   if (Notification.id n =? id)%string
                   then Notification.updatedAt n' = now w
                   else n' = n)
                (Hook.notifications (hook w)) (Hook.notifications (hook w'))) /\
    (forall status : Status.t,
        let w' := world_after (updateNotificationStatus id status) w in
        outcome_of (updateNotificationStatus id status) w = Returned tt /\
        exists written,
          calls w' = calls w ++ [updateNotificationInDb id written] /\
          Partial.updatedAt written = Some (now w)) /\
    (forall (u : User.t) (c : list Notification.t),
        let w' := world_after (toggleFollow (Some u) c id) w in
        (calls w' = calls w \/
         exists written,
           calls w' = calls w ++ [updateNotificationInDb id written] /\
           Partial.updatedAt written = None) /\
        Forall2 (fun n n' => Notification.updatedAt n' = Notification.updatedAt n)
                (Hook.notifications (hook w)) (Hook.notifications (hook w'))).
Proof.
  intros w r rest id Hin Hacc. split; [|split].
  - intros updates w'. subst w'.
    destruct (updateNotification_run id updates w) as [Hcalls H].
    rewrite Hin, Hacc in H. destruct H as [Ho Hh].
    split; [assumption|]. split.
    + eexists. split; [exact Hcalls | reflexivity].
    + rewrite Hh. simpl.
      apply (Forall2_map_if id
               (fun n => Notification.assign n updates (now w))
               (fun n n' =>
                  if (Notification.id n =? id)%string
                  then Notification.updatedAt n' = now w else n' = n)).
      * intros n E. rewrite E. reflexivity.
      * intros n E. rewrite E. reflexivity.
  - intros status w'. subst w'.
    destruct (updateNotificationStatus_run id status w) as [Hcalls H].
    rewrite Hin, Hacc in H. destruct H as [Ho _].
    split; [assumption|].
    eexists. split; [exact Hcalls | reflexivity].
  - intros u c w'. subst w'.
    unfold world_after.
    pose proof (toggleFollow_run u c id w) as Hrun. cbn zeta in Hrun.
    rewrite Hin in Hrun.
    destruct (find _ c) as [n|].
    + rewrite Hacc in Hrun. rewrite Hrun. simpl. split.
      * right. eexists. split; reflexivity.
      * apply Forall2_map_same. intros a. apply toggled_frame.
    + rewrite Hrun. simpl. split.
      * left. reflexivity.
      * apply Forall2_map_same. intros a. apply toggled_frame.
Qed.

Lemma updatedAt_after_successful_mutation_witness :
  let w := Sample.world [Sample.pothole ["U1"]; Sample.lamp]
                        [MkResume (Sample.db_up [] [] "x") Sample.t1] in
  let w' := world_after (updateNotification "n1" Partial.empty) w in
  outcome_of (updateNotification "n1" Partial.empty) w = Returned tt /\
  (exists written,
      calls w' = calls w ++ [updateNotificationInDb "n1" written] /\
      Partial.updatedAt written = Some (now w)) /\
  Forall2 (fun n n' =>
             if (Notification.id n =? "n1")%string
             then Notification.updatedAt n' = now w
             else n' = n)
          (Hook.notifications (hook w)) (Hook.notifications (hook w')).
Proof.
  apply (updatedAt_after_successful_mutation
           (Sample.world [Sample.pothole ["U1"]; Sample.lamp]
                         [MkResume (Sample.db_up [] [] "x") Sample.t1])
           (MkResume (Sample.db_up [] [] "x") Sample.t1) [] "n1").
  - reflexivity.
  - intros updates. reflexivity.
Defined.

(** C9 as stated fails for [toggleFollow]: [U2] follows ["n1"] at
    [Sample.t0] and the write is fulfilled.  The record keeps the
    [updatedAt] it had, which is not the issue time, and the object written
    to the store has no [updatedAt] key. *)
Lemma toggleFollow_leaves_updatedAt :
  let ns := [Sample.pothole ["U1"]] in
  let w := Sample.world ns [MkResume (Sample.db_up [] [] "x") Sample.t1] in
  let w' := world_after (toggleFollow (Some Sample.U2) ns "n1") w in
  outcome_of (toggleFollow (Some Sample.U2) ns "n1") w = Returned tt /\
  now w = "2024-03-05T10:00:00.000Z" /\
  map Notification.updatedAt (Hook.notifications (hook w'))
    = ["2024-03-01T09:00:00.000Z"] /\
  map Notification.followedBy (Hook.notifications (hook w'))
    = [["U1"; "U2"]] /\
  (exists written,
      calls w' = [updateNotificationInDb "n1" written] /\
      Partial.updatedAt written = None) /\
  map Notification.updatedAt (Hook.notifications (hook w')) <> [now w].
Proof.
  repeat split; try reflexivity.
  - eexists. split; reflexivity.
  - vm_compute. discriminate.
Qed.

(** [updateStatus] reads the clock twice: once for the object it writes to
    the store, once when the local update is applied after the write was
    fulfilled.  Here the store is written [Sample.t0] and the local record
    gets [Sample.t1]. *)
Lemma updateNotificationStatus_reads_clock_twice :
  let ns := [Sample.pothole ["U1"]] in
  let w := Sample.world ns [MkResume (Sample.db_up [] [] "x") Sample.t1] in
  let w' := world_after (updateNotificationStatus "n1" Status.resolved) w in
  calls w' =
    [updateNotificationInDb "n1" (Partial.of_status Status.resolved Sample.t0)] /\
  map Notification.updatedAt (Hook.notifications (hook w')) = [Sample.t1] /\
  Sample.t0 <> Sample.t1.
Proof. repeat split; try reflexivity. discriminate. Qed.

(** ** Lookups after a mutation *)

Lemma find_by_id_filter_other (id id' : string) (l : list Notification.t) :
  id' <> id ->
  find (fun n => (Notification.id n =? id')%string)
       (filter (fun n => negb (Notification.id n =? id)%string) l)
  = find (fun n => (Notification.id n =? id')%string) l.
Proof.
  intros Hne. induction l as [|a l IH]; simpl; [reflexivity|].
  destruct (String.eqb_spec (Notification.id a) id) as [E|E]; simpl.
  - destruct (String.eqb_spec (Notification.id a) id') as [E'|E'];
      [congruence | assumption].
  - now rewrite IH.
Qed.

Lemma find_by_id_map_if (id id' : string)
  (g : Notification.t -> Notification.t) (l : list Notification.t) :
  (forall n, Notification.id (g n) = Notification.id n) ->
  find (fun n => (Notification.id n =? id')%string)
       (map (fun n => if (Notification.id n =? id)%string then g n else n) l)
  = if (id' =? id)%string
    then option_map g (find (fun n => (Notification.id n =? id')%string) l)
    else find (fun n => (Notification.id n =? id')%string) l.
Proof.
  intros Hg. induction l as [|a l IH]; simpl.
  - now destruct (id' =? id)%string.
  - destruct (String.eqb_spec (Notification.id a) id) as [E|E].
    + rewrite Hg.
      destruct (String.eqb_spec (Notification.id a) id') as [E'|E'].
      * assert (H : (id' =? id)%string = true)
          by (apply String.eqb_eq; congruence).
        now rewrite H.
      * exact IH.
    + destruct (String.eqb_spec (Notification.id a) id') as [E'|E'].
      * assert (H : (id' =? id)%string = false)
          by (apply String.eqb_neq; congruence).
        now rewrite H.
      * exact IH.
Qed.

Lemma map_if_keeps {B : Type} (f : Notification.t -> B) (id : string)
  (g : Notification.t -> Notification.t) (l : list Notification.t) :
  (forall n, f (g n) = f n) ->
  map f (map (fun n => if (Notification.id n =? id)%string then g n else n) l)
  = map f l.
Proof.
  intros Hg. rewrite map_map. apply map_ext. intros n.
  destruct (Notification.id n =? id)%string; [apply Hg | reflexivity].
Qed.

(** X1: once the remote create is fulfilled with an id, looking that id up
    in the local sequence gives the record [createNotification] returned,
    and the creator's followed list is that record followed by what it was
    before. *)
Theorem createNotification_then_lookup :
  forall (u : User.t) (data : CreateNotificationData.t) (w : World)
         (r : Resume) (rest : list Resume) (id : string),
    inbox w = r :: rest ->
    (forall written, answer r (createNotificationInDb written) = Fulfilled id) ->
    let w' := world_after (createNotification (Some u) data) w in
    exists record,
      outcome_of (createNotification (Some u) data) w = Returned record /\
      getNotificationById (Hook.notifications (hook w')) id = Some record /\
      getFollowedNotifications (Some u) (Hook.notifications (hook w'))
      = record :: getFollowedNotifications (Some u) (Hook.notifications (hook w)).
Proof.
  intros u data w r rest id Hin Hans w'. subst w'.
  unfold outcome_of, world_after, createNotification. simpl.
  rewrite Hin. simpl. rewrite Hans. simpl.
  eexists. split; [reflexivity|].
  unfold getNotificationById, getFollowedNotifications. simpl.
  rewrite !String.eqb_refl. simpl. split; reflexivity.
Qed.

Lemma createNotification_then_lookup_witness :
  let w := Sample.world [Sample.lamp]
             [MkResume (Sample.db_up [] [] "n7") Sample.t1] in
  let w' := world_after (createNotification (Some Sample.U1) Sample.pothole_data) w in
  exists record,
    outcome_of (createNotification (Some Sample.U1) Sample.pothole_data) w
    = Returned record /\
    getNotificationById (Hook.notifications (hook w')) "n7" = Some record /\
    getFollowedNotifications (Some Sample.U1) (Hook.notifications (hook w'))
    = record :: getFollowedNotifications (Some Sample.U1)
                  (Hook.notifications (hook w)).
Proof.
  apply (createNotification_then_lookup Sample.U1 Sample.pothole_data
           (Sample.world [Sample.lamp]
              [MkResume (Sample.db_up [] [] "n7") Sample.t1])
           (MkResume (Sample.db_up [] [] "n7") Sample.t1) [] "n7").
  - reflexivity.
  - intros written. reflexivity.
Defined.

(** X2: whatever becomes of the remote delete, [deleteNotification(id)]
    does not change what a lookup of any other id returns. *)
Theorem deleteNotification_other_lookups :
  forall (id id' : string) (w : World),
    id' <> id ->
    getNotificationById
      (Hook.notifications (hook (world_after (deleteNotification id) w))) id'
    = getNotificationById (Hook.notifications (hook w)) id'.
Proof.
  intros id id' w Hne.
  destruct (deleteNotification_run id w) as [_ H].
  destruct (inbox w) as [|r rest].
  - destruct H as [_ Hh]. now rewrite Hh.
  - destruct (answer r (deleteNotificationFromDb id)) as [x|e].
    + destruct H as [_ Hh]. rewrite Hh. simpl.
      now apply find_by_id_filter_other.
    + destruct H as [_ [Hh _]]. now rewrite Hh.
Qed.

Lemma deleteNotification_other_lookups_witness :
  let w := Sample.world [Sample.pothole ["U1"]; Sample.lamp]
             [MkResume (Sample.db_up [] [] "x") Sample.t1] in
  getNotificationById
    (Hook.notifications (hook (world_after (deleteNotification "n1") w))) "n2"
  = getNotificationById (Hook.notifications (hook w)) "n2".
Proof.
  apply (deleteNotification_other_lookups "n1" "n2"
           (Sample.world [Sample.pothole ["U1"]; Sample.lamp]
              [MkResume (Sample.db_up [] [] "x") Sample.t1])).
  discriminate.
Defined.

(** X3: [updateNotificationStatus(id, status)] never adds, removes,
    reorders or renames a record and never touches a follower set, whatever
    becomes of the remote write.  A lookup of another id returns what it
    did; once the write is fulfilled a lookup of [id] returns the old record
    with the new status and, as [updatedAt], the clock reading at that
    moment. *)
Theorem updateNotificationStatus_lookups :
  forall (id : string) (status : Status.t) (w : World),
    let w' := world_after (updateNotificationStatus id status) w in
    let before := Hook.notifications (hook w) in
    let after := Hook.notifications (hook w') in
    map Notification.id after = map Notification.id before /\
    map Notification.followedBy after = map Notification.followedBy before /\
    (forall id', id' <> id ->
       getNotificationById after id' = getNotificationById before id') /\
    match inbox w with
    | [] => after = before
    | r :: _ =>
        match answer r (updateNotificationInDb id
                          (Partial.of_status status (now w))) with
        | Fulfilled _ =>
            getNotificationById after id
            = option_map (fun n => Notification.with_status n status (at_time r))
                         (getNotificationById before id)
        | Rejected _ => after = before
        end
    end.
Proof.
  intros id status w w' before after. subst w' before after.
  destruct (updateNotificationStatus_run id status w) as [_ H].
  destruct (inbox w) as [|r rest].
  - destruct H as [_ Hh]. rewrite Hh. auto.
  - destruct (answer r _) as [x|e].
    + destruct H as [_ Hh]. rewrite Hh. simpl.
      split; [|split; [|split]].
      * now apply map_if_keeps.
      * now apply map_if_keeps.
      * intros id' Hne. unfold getNotificationById.
        rewrite find_by_id_map_if by reflexivity.
        apply String.eqb_neq in Hne. now rewrite Hne.
      * unfold getNotificationById.
        rewrite find_by_id_map_if by reflexivity.
        now rewrite String.eqb_refl.
    + destruct H as [_ [Hh _]]. rewrite Hh. auto.
Qed.

(** X4: an [updateNotification(id, updates)] whose [updates] has no [id]
    key never adds, removes, reorders or renames a record, whatever becomes
    of the remote write. *)
Theorem updateNotification_keeps_ids :
  forall (id : string) (updates : Partial.t) (w : World),
    Partial.id updates = None ->
    map Notification.id
        (Hook.notifications (hook (world_after (updateNotification id updates) w)))
    = map Notification.id (Hook.notifications (hook w)).
Proof.
  intros id updates w Hid.
  destruct (updateNotification_run id updates w) as [_ H].
  destruct (inbox w) as [|r rest].
  - destruct H as [_ Hh]. now rewrite Hh.
  - destruct (answer r _) as [x|e].
    + destruct H as [_ Hh]. rewrite Hh. simpl.
      apply map_if_keeps. intros n. simpl. now rewrite Hid.
    + destruct H as [_ [Hh _]]. now rewrite Hh.
Qed.

Lemma updateNotification_keeps_ids_witness :
  let w := Sample.world [Sample.pothole ["U1"]; Sample.lamp]
             [MkResume (Sample.db_up [] [] "x") Sample.t1] in
  let updates := Partial.of_followedBy ["U1"; "U2"] in
  map Notification.id
      (Hook.notifications (hook (world_after (updateNotification "n1" updates) w)))
  = map Notification.id (Hook.notifications (hook w)).
Proof.
  apply (updateNotification_keeps_ids "n1" (Partial.of_followedBy ["U1"; "U2"])
           (Sample.world [Sample.pothole ["U1"]; Sample.lamp]
              [MkResume (Sample.db_up [] [] "x") Sample.t1])).
  reflexivity.
Defined.

Lemma find_by_id_renamed (id id' : string)
  (g : Notification.t -> Notification.t) (l : list Notification.t) :
  id' <> id ->
  (forall n, Notification.id (g n) = id') ->
  find (fun n => (Notification.id n =? id)%string)
       (map (fun n => if (Notification.id n =? id)%string then g n else n) l)
  = None.
Proof.
  intros Hne Hg. induction l as [|a l IH]; simpl; [reflexivity|].
  destruct (String.eqb_spec (Notification.id a) id) as [E|E].
  - rewrite Hg. apply String.eqb_neq in Hne. now rewrite Hne.
  - apply String.eqb_neq in E. now rewrite E.
Qed.

(** X5: when [updates] carries an [id] key with another id, a fulfilled
    [updateNotification(id, updates)] renames the matching records in the
    local sequence: the write went to [id], and a lookup of [id] now returns
    nothing. *)
Theorem updateNotification_id_key_renames :
  forall (id id' : string) (updates : Partial.t) (w : World)
         (r : Resume) (rest : list Resume),
    Partial.id updates = Some id' ->
    id' <> id ->
    inbox w = r :: rest ->
    accepts_writes id r ->
    let w' := world_after (updateNotification id updates) w in
    outcome_of (updateNotification id updates) w = Returned tt /\
    calls w' =
      calls w ++
      [updateNotificationInDb id (Partial.with_updatedAt updates (now w))] /\
    getNotificationById (Hook.notifications (hook w')) id = None.
Proof.
  intros id id' updates w r rest Hid Hne Hin Hacc w'. subst w'.
  destruct (updateNotification_run id updates w) as [Hcalls H].
  rewrite Hin, Hacc in H. destruct H as [Ho Hh].
  split; [assumption|]. split; [assumption|].
  rewrite Hh. simpl. unfold getNotificationById.
  apply (find_by_id_renamed id id'); [assumption|].
  intros n. simpl. now rewrite Hid.
Qed.

Lemma updateNotification_id_key_renames_witness :
  let updates :=
    Partial.Build (Some "n9") None None None None None None None None None
                  None None in
  let w := Sample.world [Sample.pothole ["U1"]; Sample.lamp]
             [MkResume (Sample.db_up [] [] "x") Sample.t1] in
  let w' := world_after (updateNotification "n1" updates) w in
  outcome_of (updateNotification "n1" updates) w = Returned tt /\
  calls w' =
    calls w ++
    [updateNotificationInDb "n1" (Partial.with_updatedAt updates (now w))] /\
  getNotificationById (Hook.notifications (hook w')) "n1" = None.
Proof.
  apply (updateNotification_id_key_renames "n1" "n9"
           (Partial.Build (Some "n9") None None None None None None None None
                          None None None)
           (Sample.world [Sample.pothole ["U1"]; Sample.lamp]
              [MkResume (Sample.db_up [] [] "x") Sample.t1])
           (MkResume (Sample.db_up [] [] "x") Sample.t1) []).
  - reflexivity.
  - discriminate.
  - reflexivity.
  - intros updates. reflexivity.
Defined.

(** ** More on toggleFollow *)

Lemma toggled_membership (u id : string) (n : Notification.t) :
  Notification.id n = id ->
  (In u (Notification.followedBy (toggled u id n)) <->
   ~ In u (Notification.followedBy n)) /\
  (forall x, x <> u ->
     (In x (Notification.followedBy (toggled u id n)) <->
      In x (Notification.followedBy n))).
Proof.
  intros E. unfold toggled, toggleFollow_step.
  apply String.eqb_eq in E. rewrite E. simpl.
  destruct (includes (Notification.followedBy n) u) eqn:I; simpl.
  - apply includes_In in I. split.
    + rewrite In_without. tauto.
    + intros x Hx. rewrite In_without. tauto.
  - apply includes_false in I. split.
    + rewrite in_app_iff. simpl. tauto.
    + intros x Hx. rewrite in_app_iff. simpl. split; [|tauto].
      intros [H|[H|[]]]; [assumption | congruence].
Qed.

Lemma toggled_NoDup (u id : string) (n : Notification.t) :
  NoDup (Notification.followedBy n) ->
  NoDup (Notification.followedBy (toggled u id n)).
Proof.
  intros H. unfold toggled, toggleFollow_step.
  destruct (negb (Notification.id n =? id)%string); simpl; [assumption|].
  destruct (includes (Notification.followedBy n) u) eqn:I; simpl.
  - now apply NoDup_without.
  - apply NoDup_snoc; [assumption | now apply includes_false].
Qed.

(** X6: a [toggleFollow(id)] whose write is not rejected flips the
    membership of the active identity in the follower set of every record
    with that id, and of nobody else; records with another id are
    untouched. *)
Theorem toggleFollow_flips_membership :
  forall (u : User.t) (c : list Notification.t) (id : string) (w : World),
    Forall (accepts_writes id) (inbox w) ->
    Forall2 (fun n n' =>
               if (Notification.id n =? id)%string
               then (In (User.id u) (Notification.followedBy n') <->
                     ~ In (User.id u) (Notification.followedBy n)) /\
                    (forall x, x <> User.id u ->
                       (In x (Notification.followedBy n') <->
                        In x (Notification.followedBy n)))
               else n' = n)
            (Hook.notifications (hook w))
            (Hook.notifications
               (hook (world_after (toggleFollow (Some u) c id) w))).
Proof.
  intros u c id w Hacc.
  destruct (toggleFollow_accepted u c id w Hacc) as (Hh & _ & _).
  rewrite Hh. simpl. apply Forall2_map_same. intros n.
  destruct (String.eqb_spec (Notification.id n) id) as [E|E].
  - now apply toggled_membership.
  - now apply toggled_other.
Qed.

Lemma toggleFollow_flips_membership_witness :
  let w := Sample.world [Sample.pothole ["U1"]; Sample.lamp] [] in
  Forall2 (fun n n' =>
             if (Notification.id n =? "n1")%string
             then (In (User.id Sample.U2) (Notification.followedBy n') <->
                   ~ In (User.id Sample.U2) (Notification.followedBy n)) /\
                  (forall x, x <> User.id Sample.U2 ->
                     (In x (Notification.followedBy n') <->
                      In x (Notification.followedBy n)))
             else n' = n)
          (Hook.notifications (hook w))
          (Hook.notifications
             (hook (world_after
                      (toggleFollow (Some Sample.U2) [Sample.pothole ["U1"]] "n1")
                      w))).
Proof.
  apply (toggleFollow_flips_membership Sample.U2 [Sample.pothole ["U1"]] "n1"
           (Sample.world [Sample.pothole ["U1"]; Sample.lamp] [])).
  simpl. constructor.
Defined.

(** X7: a [toggleFollow] whose write is not rejected keeps follower sets
    free of duplicates: if no record of the local sequence lists a follower
    twice before the call, none does after it. *)
Theorem toggleFollow_keeps_followers_unique :
  forall (u : User.t) (c : list Notification.t) (id : string) (w : World),
    Forall (accepts_writes id) (inbox w) ->
    Forall (fun n => NoDup (Notification.followedBy n))
           (Hook.notifications (hook w)) ->
    Forall (fun n => NoDup (Notification.followedBy n))
           (Hook.notifications
              (hook (world_after (toggleFollow (Some u) c id) w))).
Proof.
  intros u c id w Hacc Hnd.
  destruct (toggleFollow_accepted u c id w Hacc) as (Hh & _ & _).
  rewrite Hh. simpl. rewrite Forall_map.
  apply Forall_impl with (2 := Hnd). intros n. apply toggled_NoDup.
Qed.

Lemma toggleFollow_keeps_followers_unique_witness :
  let w := Sample.world [Sample.pothole ["U1"; "U2"]; Sample.lamp] [] in
  Forall (fun n => NoDup (Notification.followedBy n))
         (Hook.notifications
            (hook (world_after
                     (toggleFollow (Some Sample.U2)
                                   [Sample.pothole ["U1"; "U2"]] "n1")
                     w))).
Proof.
  apply (toggleFollow_keeps_followers_unique Sample.U2
           [Sample.pothole ["U1"; "U2"]] "n1"
           (Sample.world [Sample.pothole ["U1"; "U2"]; Sample.lamp] [])).
  - simpl. constructor.
  - simpl. repeat constructor; simpl; intuition discriminate.
Defined.

Lemma filter_map_comm {A : Type} (p : A -> bool) (f : A -> A) (l : list A) :
  filter p (map f l) = map f (filter (fun a => p (f a)) l).
Proof.
  induction l as [|a l IH]; simpl; [reflexivity|].
  destruct (p (f a)); simpl; now rewrite IH.
Qed.

Lemma includes_toggled (u id : string) (n : Notification.t) :
  includes (Notification.followedBy (toggled u id n)) u
  = if (Notification.id n =? id)%string
    then negb (includes (Notification.followedBy n) u)
    else includes (Notification.followedBy n) u.
Proof.
  destruct (String.eqb_spec (Notification.id n) id) as [E|E].
  - destruct (toggled_membership u id n E) as [H _].
    destruct (includes (Notification.followedBy n) u) eqn:I; simpl.
    + apply includes_false. rewrite H. apply includes_In in I. tauto.
    + apply includes_In. rewrite H. now apply includes_false.
  - now rewrite toggled_other.
Qed.

(** X8: after a [toggleFollow(id)] whose write is not rejected, the
    identity's followed list is made of the records with that id it did not
    follow before (now toggled) and the records with another id it
    followed before, in the order of the local sequence. *)
Theorem toggleFollow_then_followed :
  forall (u : User.t) (c : list Notification.t) (id : string) (w : World),
    Forall (accepts_writes id) (inbox w) ->
    getFollowedNotifications (Some u)
      (Hook.notifications (hook (world_after (toggleFollow (Some u) c id) w)))
    = map (toggled (User.id u) id)
        (filter (fun n =>
                   if (Notification.id n =? id)%string
                   then negb (includes (Notification.followedBy n) (User.id u))
                   else includes (Notification.followedBy n) (User.id u))
                (Hook.notifications (hook w))).
Proof.
  intros u c id w Hacc.
  destruct (toggleFollow_accepted u c id w Hacc) as (Hh & _ & _).
  rewrite Hh. simpl. unfold getFollowedNotifications.
  rewrite filter_map_comm. f_equal.
  apply filter_ext. intros n. apply includes_toggled.
Qed.

Lemma toggleFollow_then_followed_witness :
  let w := Sample.world [Sample.pothole ["U1"]; Sample.lamp] [] in
  getFollowedNotifications (Some Sample.U2)
    (Hook.notifications
       (hook (world_after
                (toggleFollow (Some Sample.U2) [Sample.pothole ["U1"]] "n1") w)))
  = [Sample.pothole ["U1"; "U2"]; Sample.lamp].
Proof.
  apply (toggleFollow_then_followed Sample.U2 [Sample.pothole ["U1"]] "n1"
           (Sample.world [Sample.pothole ["U1"]; Sample.lamp] [])).
  simpl. constructor.
Defined.

(** X9: [toggleFollow] never rejects, whatever the store answers; it is
    left pending only when no answer has come yet. *)
Theorem toggleFollow_never_throws :
  forall (user : option User.t) (c : list Notification.t) (id : string)
         (w : World),
    (forall e, outcome_of (toggleFollow user c id) w <> Threw e) /\
    (outcome_of (toggleFollow user c id) w = Pending -> inbox w = []).
Proof.
  intros [u|] c id w; unfold outcome_of.
  - pose proof (toggleFollow_run u c id w) as Hrun. cbn zeta in Hrun.
    destruct (find _ c) as [n|].
    + destruct (inbox w) as [|r rest].
      * rewrite Hrun. simpl. split; [discriminate | reflexivity].
      * destruct (answer r _) as [x|e']; rewrite Hrun; simpl;
          split; discriminate.
    + rewrite Hrun. simpl. split; discriminate.
  - simpl. split; discriminate.
Qed.

Lemma refreshNotifications_settled (w : World) (r : Resume)
  (rest : list Resume) :
  inbox w = r :: rest ->
  let w' := world_after refreshNotifications w in
  calls w' = calls w ++ [fetchNotificationsFromDb; fetchEmergencyAlertsFromDb] /\
  inbox w' = rest /\
  match answer r fetchNotificationsFromDb,
        answer r fetchEmergencyAlertsFromDb with
  | Fulfilled ns, Fulfilled alerts =>
      hook w' = Hook.Build ns alerts false /\ console w' = console w
  | Rejected e, Fulfilled _ | Fulfilled _, Rejected e =>
      hook w' = Hook.Build (Hook.notifications (hook w))
                           (Hook.emergencyAlerts (hook w)) false /\
      console w' = console w ++ [("Failed to fetch notifications or alerts", e)]
  | Rejected e1, Rejected e2 =>
      hook w' = Hook.Build (Hook.notifications (hook w))
                           (Hook.emergencyAlerts (hook w)) false /\
      console w' =
        console w ++
        [("Failed to fetch notifications or alerts",
          if second_settles_first r then e2 else e1)]
  end.
Proof.
  intros Hin. unfold world_after, refreshNotifications. simpl.
  rewrite Hin. simpl.
  destruct (answer r fetchNotificationsFromDb) as [ns|e];
    destruct (answer r fetchEmergencyAlertsFromDb) as [alerts|e'];
    simpl; auto.
Qed.

(** X10: when the store rejects the write of [toggleFollow], the callback
    logs the rejection, returns normally and refreshes.  If both fetches of
    that refresh are fulfilled, the hook holds exactly what was fetched
    (the toggle is gone unless the store has it); if one is rejected, the
    local sequence keeps the toggle.  Either way [loading] ends [false]. *)
Theorem toggleFollow_rejected_refreshes :
  forall (u : User.t) (c : list Notification.t) (id : string) (w : World)
         (r1 r2 : Resume) (rest : list Resume) (e : Thrown),
    In id (map Notification.id c) ->
    inbox w = r1 :: r2 :: rest ->
    (forall updates, answer r1 (updateNotificationInDb id updates) = Rejected e) ->
    let w' := world_after (toggleFollow (Some u) c id) w in
    outcome_of (toggleFollow (Some u) c id) w = Returned tt /\
    (exists followers,
        calls w' =
          calls w ++
          [updateNotificationInDb id (Partial.of_followedBy followers);
           fetchNotificationsFromDb; fetchEmergencyAlertsFromDb]) /\
    match answer r2 fetchNotificationsFromDb,
          answer r2 fetchEmergencyAlertsFromDb with
    | Fulfilled ns, Fulfilled alerts =>
        hook w' = Hook.Build ns alerts false /\
        console w' = console w ++ [("Failed to toggle follow", e)]
    | Rejected e', Fulfilled _ | Fulfilled _, Rejected e' =>
        hook w' =
          Hook.Build (map (toggled (User.id u) id) (Hook.notifications (hook w)))
                     (Hook.emergencyAlerts (hook w)) false /\
        console w' =
          console w ++ [("Failed to toggle follow", e);
                        ("Failed to fetch notifications or alerts", e')]
    | Rejected e1, Rejected e2 =>
        hook w' =
          Hook.Build (map (toggled (User.id u) id) (Hook.notifications (hook w)))
                     (Hook.emergencyAlerts (hook w)) false /\
        console w' =
          console w ++ [("Failed to toggle follow", e);
                        ("Failed to fetch notifications or alerts",
                         if second_settles_first r2 then e2 else e1)]
    end.
Proof.
  intros u c id w r1 r2 rest e Hc Hin Hrej w'. subst w'.
  pose proof (toggleFollow_run u c id w) as Hrun. cbn zeta in Hrun.
  destruct (find_by_id_In id c Hc) as [n Hn].
  rewrite Hn, Hin, Hrej in Hrun.
  match type of Hrun with
  | _ = (_, world_after refreshNotifications ?x) => set (w2 := x) in Hrun
  end.
  assert (Ho : outcome_of (toggleFollow (Some u) c id) w = Returned tt)
    by (unfold outcome_of; now rewrite Hrun).
  assert (Hw : world_after (toggleFollow (Some u) c id) w
               = world_after refreshNotifications w2)
    by (unfold world_after at 1; now rewrite Hrun).
  rewrite Hw. clear Hrun Hw.
  destruct (refreshNotifications_settled w2 r2 rest eq_refl)
    as (Hcalls & _ & Hrest).
  split; [assumption|]. split.
  - eexists. rewrite Hcalls. subst w2. simpl.
    rewrite <- app_assoc. reflexivity.
  - destruct (answer r2 fetchNotificationsFromDb) as [ns|e1];
      destruct (answer r2 fetchEmergencyAlertsFromDb) as [alerts|e2];
      destruct Hrest as [Hh Hco]; rewrite Hh, Hco; subst w2; simpl;
      rewrite <- ?app_assoc; auto.
Qed.

Lemma toggleFollow_rejected_refreshes_witness :
  let w := Sample.world [Sample.pothole ["U1"]; Sample.lamp]
             [MkResume Sample.db_down Sample.t1;
              MkResume (Sample.db_up [Sample.lamp] [] "x") Sample.t1] in
  let p := toggleFollow (Some Sample.U2) [Sample.pothole ["U1"]] "n1" in
  outcome_of p w = Returned tt /\
  (exists followers,
      calls (world_after p w) =
        calls w ++
        [updateNotificationInDb "n1" (Partial.of_followedBy followers);
         fetchNotificationsFromDb; fetchEmergencyAlertsFromDb]) /\
  hook (world_after p w) = Hook.Build [Sample.lamp] [] false /\
  console (world_after p w) =
    console w ++ [("Failed to toggle follow", RemoteError "unavailable")].
Proof.
  apply (toggleFollow_rejected_refreshes Sample.U2 [Sample.pothole ["U1"]] "n1"
           (Sample.world [Sample.pothole ["U1"]; Sample.lamp]
              [MkResume Sample.db_down Sample.t1;
               MkResume (Sample.db_up [Sample.lamp] [] "x") Sample.t1])
           (MkResume Sample.db_down Sample.t1)
           (MkResume (Sample.db_up [Sample.lamp] [] "x") Sample.t1) []
           (RemoteError "unavailable")).
  - simpl. left. reflexivity.
  - reflexivity.
  - intros updates. reflexivity.
Defined.

(** ** The session hook *)

(** X11: what the listener of [onAuthStateChanged] does.  Signed out: the
    hook holds no user, without any call.  Signed in: the profile is
    fetched; nothing changes while the fetch is pending; a profile that is
    found becomes the user of an authenticated session; a profile that is
    missing, or a fetch that fails, leaves the hook without user and
    unauthenticated.  Whenever the listener has finished, [isLoading] is
    [false], and the preferences are never touched. *)
Theorem onAuthStateChanged_callback_settles :
  forall (firebaseUser : option Auth.FirebaseUser) (w : Auth.World),
    let p := Auth.onAuthStateChanged_callback firebaseUser in
    let w' := snd (Auth.run p w) in
    let prefs := Auth.preferences (Auth.state w) in
    match firebaseUser with
    | None =>
        fst (Auth.run p w) = Auth.Returned tt /\
        Auth.calls w' = Auth.calls w /\
        Auth.state w' = Auth.MkAuthState None false false prefs
    | Some f =>
        Auth.calls w' = Auth.calls w ++ [Auth.getUserProfile (Auth.uid f)] /\
        match Auth.inbox w with
        | [] =>
            fst (Auth.run p w) = Auth.Pending /\ Auth.state w' = Auth.state w
        | r :: _ =>
            fst (Auth.run p w) = Auth.Returned tt /\
            match Auth.answer r (Auth.getUserProfile (Auth.uid f)) with
            | Auth.Resolved (Some profile) =>
                Auth.state w' = Auth.MkAuthState (Some profile) false true prefs /\
                Auth.console w' = Auth.console w
            | Auth.Resolved None =>
                Auth.state w' = Auth.MkAuthState None false false prefs /\
                Auth.console w' =
                  Auth.console w ++
                  [Auth.ConsoleWarn "User profile not found for"
                                    (Some (Auth.uid f))]
            | Auth.Failed e =>
                Auth.state w' = Auth.MkAuthState None false false prefs /\
                Auth.console w' =
                  Auth.console w ++
                  [Auth.ConsoleError "Error fetching user profile:" e]
            end
        end
    end.
Proof.
  intros [f|] w; unfold Auth.onAuthStateChanged_callback; simpl; [|auto].
  destruct (Auth.inbox w) as [|r rest]; simpl; [auto|].
  destruct (Auth.answer r _) as [[profile|]|e]; simpl; auto.
Qed.

(** The state after any one operation: unchanged, or rewritten by the
    listener, or given new preferences. *)
Lemma auth_after_state (o : Auth.Op) (w : Auth.World) :
  let s := Auth.state w in
  let s' := Auth.state (Auth.after o w) in
  s' = s \/
  (exists profile,
      s' = Auth.MkAuthState (Some profile) false true (Auth.preferences s)) \/
  s' = Auth.MkAuthState None false false (Auth.preferences s) \/
  (exists prefs,
      s' = Auth.MkAuthState (Auth.user s) (Auth.isLoading s)
                            (Auth.isAuthenticated s) prefs).
Proof.
  destruct o as [[f|]|email password|email password fullName department|
                 |prefs|updates]; simpl.
  - unfold Auth.onAuthStateChanged_callback. simpl.
    destruct (Auth.inbox w) as [|r rest]; simpl; [auto|].
    destruct (Auth.answer r _) as [[profile|]|e]; simpl; eauto.
  - auto.
  - unfold Auth.login. simpl.
    destruct (Auth.inbox w) as [|r rest]; simpl; [auto|].
    destruct (Auth.answer r _) as [x|e]; simpl; auto.
  - unfold Auth.register. simpl.
    destruct (Auth.inbox w) as [|r rest]; simpl; [auto|].
    destruct (Auth.answer r _) as [x|e]; simpl; [|auto].
    destruct rest as [|r2 rest2]; simpl; [auto|].
    destruct (Auth.answer r2 _) as [y|e]; simpl; auto.
  - unfold Auth.logout. simpl.
    destruct (Auth.inbox w) as [|r rest]; simpl; [auto|].
    destruct (Auth.answer r _) as [x|e]; simpl; auto.
  - unfold Auth.updatePreferences. simpl.
    destruct (Auth.inbox w) as [|r rest]; simpl; [auto|].
    destruct (Auth.answer r _) as [x|e]; simpl; eauto 6.
  - auto.
Qed.

Lemma auth_after_consistent (o : Auth.Op) (w : Auth.World) :
  Auth.consistent (Auth.state w) ->
  Auth.consistent (Auth.state (Auth.after o w)).
Proof.
  intros [Hauth Hload].
  destruct (auth_after_state o w) as [H|[[profile H]|[H|[prefs H]]]];
    cbn zeta in H; rewrite H; unfold Auth.consistent; simpl.
  - split; assumption.
  - split; [split; [discriminate | reflexivity] | discriminate].
  - split; [split; [discriminate | congruence] | reflexivity].
  - split; assumption.
Qed.

Lemma auth_after_all_consistent (ops : list Auth.Op) (w : Auth.World) :
  Auth.consistent (Auth.state w) ->
  Auth.consistent (Auth.state (Auth.after_all ops w)).
Proof.
  revert w. induction ops as [|o ops IH]; intros w H; simpl; [assumption|].
  apply IH. now apply auth_after_consistent.
Qed.

(** X12: whatever sequence of listener notifications and callback
    invocations a freshly mounted hook goes through, and whatever the
    services answer, the hook reports an authenticated session exactly when
    it holds a user, and holds no user while [isLoading] is [true]. *)
Theorem auth_flags_consistent :
  forall (ops : list Auth.Op) (date : Timestamp) (inbox : list Auth.Resume),
    Auth.consistent (Auth.state (Auth.after_all ops (Auth.mounted date inbox))).
Proof.
  intros ops date inbox. apply auth_after_all_consistent.
  unfold Auth.consistent. simpl. split; [split|]; congruence.
Qed.

(** X13: [login], [register], [logout] and [updateProfile] never change
    the state of the hook, whatever the services answer; the listener never
    changes the preferences; [updatePreferences] changes nothing but the
    preferences, and only once the write to storage has resolved: while it
    is pending or when it fails the state is what it was. *)
Theorem auth_state_changes :
  forall (o : Auth.Op) (w : Auth.World),
    let s := Auth.state w in
    let s' := Auth.state (Auth.after o w) in
    match o with
    | Auth.AuthStateChanged _ => Auth.preferences s' = Auth.preferences s
    | Auth.UpdatePreferences newPreferences =>
        match Auth.inbox w with
        | [] => s' = s
        | r :: _ =>
            match Auth.answer r (Auth.setItem "preferences" newPreferences) with
            | Auth.Resolved _ =>
                s' = Auth.MkAuthState (Auth.user s) (Auth.isLoading s)
                                      (Auth.isAuthenticated s) newPreferences
            | Auth.Failed e =>
                s' = s /\
                Auth.console (Auth.after o w) =
                  Auth.console w ++
                  [Auth.ConsoleError "Failed to update preferences:" e]
            end
        end
    | _ => s' = s
    end.
Proof.
  intros o w.
  destruct o as [[f|]|email password|email password fullName department|
                 |prefs|updates]; simpl.
  - unfold Auth.onAuthStateChanged_callback. simpl.
    destruct (Auth.inbox w) as [|r rest]; simpl; [auto|].
    destruct (Auth.answer r _) as [[profile|]|e]; simpl; auto.
  - reflexivity.
  - unfold Auth.login. simpl.
    destruct (Auth.inbox w) as [|r rest]; simpl; [auto|].
    destruct (Auth.answer r _) as [x|e]; simpl; auto.
  - unfold Auth.register. simpl.
    destruct (Auth.inbox w) as [|r rest]; simpl; [auto|].
    destruct (Auth.answer r _) as [x|e]; simpl; [|auto].
    destruct rest as [|r2 rest2]; simpl; [auto|].
    destruct (Auth.answer r2 _) as [y|e]; simpl; auto.
  - unfold Auth.logout. simpl.
    destruct (Auth.inbox w) as [|r rest]; simpl; [auto|].
    destruct (Auth.answer r _) as [x|e]; simpl; auto.
  - unfold Auth.updatePreferences. simpl.
    destruct (Auth.inbox w) as [|r rest]; simpl; [auto|].
    destruct (Auth.answer r _) as [x|e]; simpl; auto.
  - reflexivity.
Qed.

(** X14: [login] issues one sign-in call and never rejects.  It reports
    success exactly when the sign-in resolved; on a failure it logs the
    error and reports one of its four messages, the generic one when the
    error carries no code. *)
Theorem login_reports :
  forall (email password : string) (w : Auth.World),
    let p := Auth.login email password in
    let w' := snd (Auth.run p w) in
    Auth.calls w' =
      Auth.calls w ++ [Auth.signInWithEmailAndPassword email password] /\
    match Auth.inbox w with
    | [] => fst (Auth.run p w) = Auth.Pending
    | r :: _ =>
        match Auth.answer r (Auth.signInWithEmailAndPassword email password) with
        | Auth.Resolved _ =>
            fst (Auth.run p w) = Auth.Returned (Auth.MkAuthResult true None) /\
            Auth.console w' = Auth.console w
        | Auth.Failed e =>
            Auth.console w' =
              Auth.console w ++ [Auth.ConsoleError "Login error:" e] /\
            exists msg,
              fst (Auth.run p w)
              = Auth.Returned (Auth.MkAuthResult false (Some msg)) /\
              In msg ["Invalid email or password"; "User not found";
                      "Invalid password"; "An error occurred during login"] /\
              (Auth.code e = None -> msg = "An error occurred during login")
        end
    end.
Proof.
  intros email password w. unfold Auth.login. simpl.
  destruct (Auth.inbox w) as [|r rest]; simpl; [auto|].
  destruct (Auth.answer r _) as [x|e]; simpl; [auto|].
  split; [reflexivity|]. split; [reflexivity|].
  eexists. split; [reflexivity|]. split.
  - destruct (Auth.code_is e "auth/invalid-credential");
      [simpl; tauto|].
    destruct (Auth.code_is e "auth/user-not-found"); [simpl; tauto|].
    destruct (Auth.code_is e "auth/wrong-password"); simpl; tauto.
  - intros Hcode. unfold Auth.code_is. rewrite Hcode. reflexivity.
Qed.

(** X15: [register] creates the account first and writes the profile only
    once the account exists.  The profile it writes carries the uid of the
    new account, the fields given, the clock reading taken after the account
    was created, and always the role [user].  It reports success only when
    both calls resolved, never rejects, and never changes the state of the
    hook. *)
Theorem register_writes_user_profile :
  forall (email password fullName department : string) (w : Auth.World),
    let p := Auth.register email password fullName department in
    let w' := snd (Auth.run p w) in
    let create := Auth.createUserWithEmailAndPassword email password in
    Auth.state w' = Auth.state w /\
    match Auth.inbox w with
    | [] =>
        fst (Auth.run p w) = Auth.Pending /\
        Auth.calls w' = Auth.calls w ++ [create]
    | r1 :: rest =>
        match Auth.answer r1 create with
        | Auth.Failed e =>
            Auth.calls w' = Auth.calls w ++ [create] /\
            exists msg,
              fst (Auth.run p w)
              = Auth.Returned (Auth.MkAuthResult false (Some msg))
        | Auth.Resolved firebaseUser =>
            let newUser :=
              User.Build (Auth.uid firebaseUser) email fullName department
                         Role.user (Auth.at_time r1) in
            Auth.calls w' =
              Auth.calls w ++ [create; Auth.createUserProfile newUser] /\
            match rest with
            | [] => fst (Auth.run p w) = Auth.Pending
            | r2 :: _ =>
                match Auth.answer r2 (Auth.createUserProfile newUser) with
                | Auth.Resolved _ =>
                    fst (Auth.run p w)
                    = Auth.Returned (Auth.MkAuthResult true None)
                | Auth.Failed e =>
                    exists msg,
                      fst (Auth.run p w)
                      = Auth.Returned (Auth.MkAuthResult false (Some msg))
                end
            end
        end
    end.
Proof.
  intros email password fullName department w. unfold Auth.register. simpl.
  destruct (Auth.inbox w) as [|r1 rest]; simpl; [auto|].
  destruct (Auth.answer r1 _) as [firebaseUser|e]; simpl.
  - destruct rest as [|r2 rest2]; simpl.
    + rewrite <- app_assoc. auto.
    + destruct (Auth.answer r2 _) as [y|e]; simpl;
        rewrite <- app_assoc; simpl; eauto.
  - eauto.
Qed.

(** X16: while the session hook reports no authenticated session, at any
    point after it was mounted, the [user] it hands to the notifications
    hook makes [createNotification] throw [NotAuthenticated] and
    [createEmergencyAlert] throw [NotAuthorized] with no call issued,
    [toggleFollow] do nothing, and the followed list be empty. *)
Theorem unauthenticated_session_cannot_write :
  forall (ops : list Auth.Op) (date : Timestamp) (inbox : list Auth.Resume)
         (w : World) (rendered : list Notification.t)
         (data : CreateNotificationData.t) (title message id : string),
    let session := Auth.state (Auth.after_all ops (Auth.mounted date inbox)) in
    Auth.isAuthenticated session = false ->
    run (createNotification (Auth.user session) data) w
    = (Threw NotAuthenticated, w) /\
    run (createEmergencyAlert (Auth.user session) title message) w
    = (Threw NotAuthorized, w) /\
    run (toggleFollow (Auth.user session) rendered id) w = (Returned tt, w) /\
    getFollowedNotifications (Auth.user session) rendered = [].
Proof.
  intros ops date inbox w rendered data title message id session Hauth.
  assert (Hc : Auth.consistent session).
  { apply auth_after_all_consistent.
    unfold Auth.consistent. simpl. split; [split|]; congruence. }
  destruct Hc as [Hiff _].
  destruct (Auth.user session) as [u|] eqn:Hu.
  - exfalso. assert (H : Auth.isAuthenticated session = true)
      by (apply Hiff; discriminate).
    congruence.
  - repeat split.
Qed.

Lemma unauthenticated_session_cannot_write_witness :
  let ops :=
    [Auth.AuthStateChanged (Some (Auth.MkFirebaseUser "U1")); Auth.Logout;
     Auth.AuthStateChanged None] in
  let answers :=
    Auth.MkResume
      (fun c =>
         match c return Auth.Settled (Auth.reply c) with
         | Auth.getUserProfile _ => Auth.Resolved (Some Sample.U1)
         | Auth.createUserProfile _ => Auth.Resolved tt
         | Auth.signInWithEmailAndPassword _ _ =>
             Auth.Resolved (Auth.MkFirebaseUser "U1")
         | Auth.createUserWithEmailAndPassword _ _ =>
             Auth.Resolved (Auth.MkFirebaseUser "U1")
         | Auth.signOut => Auth.Resolved tt
         | Auth.setItem _ _ => Auth.Resolved tt
         end)
      Sample.t1 in
  let session :=
    Auth.state (Auth.after_all ops (Auth.mounted Sample.t0 [answers; answers])) in
  let w := Sample.world [Sample.pothole ["U1"]] [] in
  run (createNotification (Auth.user session) Sample.pothole_data) w
  = (Threw NotAuthenticated, w) /\
  run (createEmergencyAlert (Auth.user session) "Fire" "Evacuate") w
  = (Threw NotAuthorized, w) /\
  run (toggleFollow (Auth.user session) [Sample.pothole ["U1"]] "n1") w
  = (Returned tt, w) /\
  getFollowedNotifications (Auth.user session) [Sample.pothole ["U1"]] = [].
Proof.
  intros ops answers session w.
  apply (unauthenticated_session_cannot_write ops Sample.t0 [answers; answers]
           w [Sample.pothole ["U1"]] Sample.pothole_data "Fire" "Evacuate" "n1").
  reflexivity.
Defined.

(** X17: once [isLoading] is [false] it stays [false], whatever happens to
    the hook afterwards. *)
Theorem auth_loading_never_returns :
  forall (ops : list Auth.Op) (w : Auth.World),
    Auth.isLoading (Auth.state w) = false ->
    Auth.isLoading (Auth.state (Auth.after_all ops w)) = false.
Proof.
  intros ops. induction ops as [|o ops IH]; intros w H; simpl; [assumption|].
  apply IH.
  destruct (auth_after_state o w) as [E|[[profile E]|[E|[prefs E]]]];
    cbn zeta in E; rewrite E; simpl; auto.
Qed.

Lemma auth_loading_never_returns_witness :
  let w := Auth.after (Auth.AuthStateChanged None) (Auth.mounted Sample.t0 []) in
  Auth.isLoading
    (Auth.state
       (Auth.after_all [Auth.Login "u1@campus.example" "secret"; Auth.Logout] w))
  = false.
Proof.
  apply (auth_loading_never_returns
           [Auth.Login "u1@campus.example" "secret"; Auth.Logout]
           (Auth.after (Auth.AuthStateChanged None) (Auth.mounted Sample.t0 []))).
  reflexivity.
Defined.
